(** * Booking lifecycle of the rental marketplace back end

    A shallow embedding of the booking model (schema, pre-save hook,
    [addPayment], [addMessage]) and of the booking and property routes,
    followed by the properties of the conflict check, the pricing hook, the
    status update and the payment ledger.

    Conventions of the model.
    - A JS [Date] is its time value, an integer number of milliseconds ([Z]).
    - A JS [Number] holding money is an integer amount ([Z]); [Math.ceil] of a
      quotient is the ceiling of the exact rational quotient.  The code
      computes in doubles, which agree with this on safe integers (absolute
      value at most 2^53 - 1): a statement about a sum, a product or a month
      count carries the hypothesis that the numbers computed are safe.
    - An [ObjectId] is a [positive]; a collection is a finite map from ids to
      documents.
    - A route handler is a function from the store (and the request) to the
      new store and the response; a thrown error is the handler's [catch]
      branch, which answers 500 and writes nothing further.
    - [save] checks the schema validators of the modelled paths on the
      document as it is, then runs the schema's pre-save hook, then writes
      the document: the library's validation is itself a pre-save hook and
      comes before those of the schema.
    - The body of a status update carries a status string.
    - A new id is one that is not in the collection.
    - Requests are past [authMiddleware]: [req.user] is the authenticated
      user.  Dates and amounts of a request are already numbers, its texts
      are within the schema's lengths, and the users a document refers to
      exist, so that [populate] finds them.
    - Of a response, the status code, the [success] flag and the message are
      kept; of the schemas, the paths the routes read or assign
      ([moveInDate], [moveOutDate], [documents], the cancellation paths and
      the timestamps are assigned by no route). *)

From Stdlib Require Import ZArith QArith Qround Lia.
From stdpp Require Import gmap strings list fin_maps.

Local Open Scope Z_scope.

(** ** Documents *)

Abbreviation ObjectId := positive (only parsing).
Abbreviation Date := Z (only parsing).

Inductive Role := owner_role | renter_role.

Record User := mkUser { u_id : ObjectId; u_role : Role }.

(** [status] of the booking schema:
    enum 'pending', 'approved', 'rejected', 'active', 'completed', 'cancelled'. *)
Inductive BookingStatus :=
  pending | approved | rejected | active | completed | cancelled.

(** [paymentStatus] of the booking schema:
    enum 'pending', 'partial', 'paid', 'overdue'. *)
Inductive PaymentStatus := pay_pending | partial | paid | overdue.

(** [paymentMethod] of a payment entry. *)
Inductive PaymentMethod := credit_card | bank_transfer | check | cash.

Record Payment := mkPayment {
  amount : Z;
  paymentMethod : option PaymentMethod;
  description : string;
  transactionId : string
}.

Record Message := mkMessage { sender : ObjectId; message_text : string }.

Record Booking := mkBooking {
  property : ObjectId;
  renter : ObjectId;
  owner : ObjectId;
  startDate : Date;
  endDate : Date;
  monthlyRent : Z;
  securityDeposit : Z;
  totalAmount : option Z;          (* undefined until the pre-save hook sets it *)
  status : BookingStatus;
  paymentStatus : PaymentStatus;
  specialRequests : string;
  paymentHistory : list Payment;
  communication : list Message
}.

(** The slice of the property schema the booking routes read and write. *)
Record Property := mkProperty {
  p_owner : ObjectId;
  rentPrice : Z;
  p_securityDeposit : Z;
  isAvailable : bool               (* availability.isAvailable *)
}.

#[global] Instance BookingStatus_eq_dec : EqDecision BookingStatus.
Proof. solve_decision. Defined.
#[global] Instance PaymentStatus_eq_dec : EqDecision PaymentStatus.
Proof. solve_decision. Defined.
#[global] Instance Role_eq_dec : EqDecision Role.
Proof. solve_decision. Defined.

(** ** Pricing: the pre-save hook *)

(** [Math.ceil] on an exact quotient. *)
Definition Math_ceil (q : Q) : Z := Qceiling q.

(** [1000 * 60 * 60 * 24 * 30], the milliseconds of a 30-day month. *)
Definition MS_PER_MONTH : Z := 1000 * 60 * 60 * 24 * 30.

(** [Math.ceil((this.endDate - this.startDate) / (1000 * 60 * 60 * 24 * 30))],
    the hook's [months] and the [durationInMonths] virtual. *)
Definition durationInMonths (b : Booking) : Z :=
  Math_ceil (inject_Z (endDate b - startDate b) / inject_Z MS_PER_MONTH)%Q.

(** The paths of a booking document that the hook inspects. *)
Inductive Path :=
  | path_monthlyRent | path_securityDeposit | path_startDate | path_endDate
  | path_status | path_paymentStatus | path_paymentHistory | path_communication
  | path_other.

#[global] Instance Path_eq_dec : EqDecision Path.
Proof. solve_decision. Defined.

(** A document in memory: its fields and the paths modified since it was
    loaded (for a new document, the paths the constructor was given). *)
Record Doc := mkDoc { fields : Booking; modified : list Path }.

Definition isModified (d : Doc) (p : Path) : bool := bool_decide (p ∈ modified d).

Definition set_totalAmount (b : Booking) (t : option Z) : Booking :=
  mkBooking (property b) (renter b) (owner b) (startDate b) (endDate b)
    (monthlyRent b) (securityDeposit b) t (status b) (paymentStatus b)
    (specialRequests b) (paymentHistory b) (communication b).

(** [bookingSchema.pre('save', ...)]. *)
Definition pre_save (d : Doc) : Doc :=
  if isModified d path_monthlyRent || isModified d path_securityDeposit
     || isModified d path_startDate || isModified d path_endDate
  then
    let months := durationInMonths (fields d) in
    mkDoc (set_totalAmount (fields d)
             (Some (monthlyRent (fields d) * months + securityDeposit (fields d))))
          (modified d)
  else d.

(** The spec's formula, in its own words: the span in days, divided by 30,
    rounded up. *)
Definition MS_PER_DAY : Z := 1000 * 60 * 60 * 24.

Definition span_in_days (s e : Date) : Q := (inject_Z (e - s) / inject_Z MS_PER_DAY)%Q.

Definition months_spec (s e : Date) : Z := Qceiling (span_in_days s e / 30)%Q.

Definition computeTotal_spec (rent deposit : Z) (s e : Date) : Z :=
  rent * months_spec s e + deposit.

(** ** The store and the responses *)

Record Store := mkStore {
  properties : gmap positive Property;
  bookings : gmap positive Booking
}.

Definition empty_store : Store := mkStore ∅ ∅.

(** [res.status(code).json({ success, message })]; [res.json] answers 200. *)
Record Response := mkResponse { code : Z; success : bool; message : string }.

(** The id the driver gives a new document: one not in the collection. *)
Definition new_ObjectId {A} (m : gmap positive A) : ObjectId := fresh (dom m).

(** The validators of the booking schema: [required] on [totalAmount],
    [min: 0] on [monthlyRent] and [securityDeposit]. *)
Definition validate (b : Booking) : bool :=
  bool_decide (0 <= monthlyRent b) && bool_decide (0 <= securityDeposit b)
  && bool_decide (is_Some (totalAmount b)).

(** [doc.save()]: validators, hook, write.  [None] is a thrown error. *)
Definition save (st : Store) (id : ObjectId) (d : Doc) : option Store :=
  if validate (fields d)
  then Some (mkStore (properties st) (<[id := fields (pre_save d)]> (bookings st)))
  else None.

(** ** POST /api/bookings *)

Record CreateRequest := mkCreateRequest {
  propertyId : ObjectId;
  req_startDate : Date;
  req_endDate : Date;
  req_specialRequests : string
}.

(** The filter of the [Booking.findOne] query:
    [{ property: propertyId, status: { $in: ['approved', 'active'] },
       $or: [{ startDate: { $lte: endDate }, endDate: { $gte: startDate } }] }]. *)
Definition conflict_filter (pid : ObjectId) (start_ end_ : Date) (b : Booking) : bool :=
  bool_decide (property b = pid)
  && bool_decide (status b ∈ [approved; active])
  && (bool_decide (startDate b <= end_) && bool_decide (endDate b >= start_)).

(** [Model.findOne(filter)]: some document that passes the filter, if any. *)
Definition findOne {A} (f : A → bool) (m : gmap positive A) : option A :=
  snd <$> List.find (λ kv, f kv.2) (map_to_list m).

Definition conflictingBooking (st : Store) (pid : ObjectId) (start_ end_ : Date)
  : option Booking :=
  findOne (conflict_filter pid start_ end_) (bookings st).

(** [new Booking({ property, renter, owner, startDate, endDate, monthlyRent,
    securityDeposit, specialRequests })] with the schema defaults. *)
Definition new_Booking (pid uid : ObjectId) (p : Property) (r : CreateRequest) : Doc :=
  mkDoc
    (mkBooking pid uid (p_owner p) (req_startDate r) (req_endDate r)
       (rentPrice p) (p_securityDeposit p) None pending pay_pending
       (req_specialRequests r) [] [])
    [path_other; path_startDate; path_endDate; path_monthlyRent;
     path_securityDeposit].

Definition res_renter_required : Response :=
  mkResponse 403 false "Access denied. Renter role required.".
Definition res_owner_required : Response :=
  mkResponse 403 false "Access denied. Owner role required.".
Definition res_property_not_found : Response :=
  mkResponse 404 false "Property not found".
Definition res_property_unavailable : Response :=
  mkResponse 400 false "Property is not available for booking".
Definition res_booking_conflict : Response :=
  mkResponse 400 false "Property is already booked for the selected dates".
Definition res_booking_created : Response :=
  mkResponse 201 true "Booking request submitted successfully".
Definition res_create_error : Response :=
  mkResponse 500 false "Server error creating booking".

Definition post_bookings (st : Store) (user : User) (r : CreateRequest)
  : Store * Response :=
  match u_role user with
  | owner_role => (st, res_renter_required)
  | renter_role =>
    match properties st !! propertyId r with
    | None => (st, res_property_not_found)
    | Some property_ =>
      if negb (isAvailable property_) then (st, res_property_unavailable)
      else
        match conflictingBooking st (propertyId r) (req_startDate r) (req_endDate r) with
        | Some _ => (st, res_booking_conflict)
        | None =>
          let booking := new_Booking (propertyId r) (u_id user) property_ r in
          match save st (new_ObjectId (bookings st)) booking with
          | Some st' => (st', res_booking_created)
          | None => (st, res_create_error)
          end
        end
    end
  end.

(** ** PUT /api/bookings/:id/status *)

(** The [enum] validator of [status] on the string of the request body. *)
Definition castStatus (s : string) : option BookingStatus :=
  if String.eqb s "pending" then Some pending
  else if String.eqb s "approved" then Some approved
  else if String.eqb s "rejected" then Some rejected
  else if String.eqb s "active" then Some active
  else if String.eqb s "completed" then Some completed
  else if String.eqb s "cancelled" then Some cancelled
  else None.

Definition set_status (b : Booking) (s : BookingStatus) : Booking :=
  mkBooking (property b) (renter b) (owner b) (startDate b) (endDate b)
    (monthlyRent b) (securityDeposit b) (totalAmount b) s (paymentStatus b)
    (specialRequests b) (paymentHistory b) (communication b).

Definition set_isAvailable (v : bool) (p : Property) : Property :=
  mkProperty (p_owner p) (rentPrice p) (p_securityDeposit p) v.

(** [Property.findByIdAndUpdate(id, { 'availability.isAvailable': v })]:
    no document, no write, no error. *)
Definition Property_findByIdAndUpdate (st : Store) (pid : ObjectId) (v : bool) : Store :=
  mkStore (alter (set_isAvailable v) pid (properties st)) (bookings st).

Definition res_booking_not_found : Response :=
  mkResponse 404 false "Booking not found".
Definition res_status_forbidden : Response :=
  mkResponse 403 false "Not authorized to update this booking".
Definition res_status_updated (s : string) : Response :=
  mkResponse 200 true ("Booking " +:+ s +:+ " successfully").
Definition res_status_error : Response :=
  mkResponse 500 false "Server error updating booking status".

(** The handler assigns the string of the body to [booking.status]; a string
    outside the enum makes [save] throw, and it is not ['approved'], so
    nothing was written before. *)
Definition put_booking_status (st : Store) (user : User) (id : ObjectId)
    (status_ : string) : Store * Response :=
  match u_role user with
  | renter_role => (st, res_owner_required)
  | owner_role =>
    match bookings st !! id with
    | None => (st, res_booking_not_found)
    | Some booking =>
      if negb (bool_decide (owner booking = u_id user)) then (st, res_status_forbidden)
      else
        match castStatus status_ with
        | None => (st, res_status_error)
        | Some s =>
          let st1 :=
            if String.eqb status_ "approved"
            then Property_findByIdAndUpdate st (property booking) false
            else st in
          match save st1 id (mkDoc (set_status booking s) [path_status]) with
          | Some st2 => (st2, res_status_updated status_)
          | None => (st1, res_status_error)
          end
        end
    end
  end.

(** ** The payment ledger: [addPayment] and POST /api/bookings/:id/payment *)

Record PaymentRequest := mkPaymentRequest {
  req_amount : Z;                     (* Number(amount) *)
  req_paymentMethod : option string;
  req_description : string;
  req_transactionId : string
}.

(** The [enum] validator of [paymentMethod]; the path is not required. *)
Definition castPaymentMethod (s : string) : option PaymentMethod :=
  if String.eqb s "credit_card" then Some credit_card
  else if String.eqb s "bank_transfer" then Some bank_transfer
  else if String.eqb s "check" then Some check
  else if String.eqb s "cash" then Some cash
  else None.

Definition castPayment (r : PaymentRequest) : option Payment :=
  match req_paymentMethod r with
  | None => Some (mkPayment (req_amount r) None (req_description r) (req_transactionId r))
  | Some m =>
    match castPaymentMethod m with
    | Some pm =>
      Some (mkPayment (req_amount r) (Some pm) (req_description r) (req_transactionId r))
    | None => None
    end
  end.

(** [this.paymentHistory.reduce((sum, payment) => sum + payment.amount, 0)]. *)
Definition totalPaid (history : list Payment) : Z :=
  fold_left (λ sum payment, sum + amount payment) history 0.

(** [totalPaid >= this.totalAmount]; comparing with [undefined] is false. *)
Definition covers (paid_ : Z) (total : option Z) : bool :=
  match total with
  | Some t => bool_decide (paid_ >= t)
  | None => false
  end.

Definition set_payments (b : Booking) (h : list Payment) (ps : PaymentStatus) : Booking :=
  mkBooking (property b) (renter b) (owner b) (startDate b) (endDate b)
    (monthlyRent b) (securityDeposit b) (totalAmount b) (status b) ps
    (specialRequests b) h (communication b).

(** The body of [bookingSchema.methods.addPayment] before [this.save()]. *)
Definition addPayment_fields (b : Booking) (paymentData : Payment) : Booking :=
  let history := paymentHistory b ++ [paymentData] in
  let totalPaid_ := totalPaid history in
  let ps :=
    if covers totalPaid_ (totalAmount b) then paid
    else if bool_decide (totalPaid_ > 0) then partial
    else paymentStatus b in
  set_payments b history ps.

(** [booking.addPayment(paymentData)]. *)
Definition addPayment (st : Store) (id : ObjectId) (b : Booking) (paymentData : Payment)
  : option Store :=
  save st id (mkDoc (addPayment_fields b paymentData)
                [path_paymentHistory; path_paymentStatus]).

Definition res_payment_forbidden : Response :=
  mkResponse 403 false "Not authorized to add payment for this booking".
Definition res_payment_added : Response :=
  mkResponse 200 true "Payment added successfully".
Definition res_payment_error : Response :=
  mkResponse 500 false "Server error adding payment".

Definition post_booking_payment (st : Store) (user : User) (id : ObjectId)
    (r : PaymentRequest) : Store * Response :=
  match bookings st !! id with
  | None => (st, res_booking_not_found)
  | Some booking =>
    let isAuthorized :=
      bool_decide (renter booking = u_id user) || bool_decide (owner booking = u_id user) in
    if negb isAuthorized then (st, res_payment_forbidden)
    else
      match castPayment r with
      | None => (st, res_payment_error)
      | Some paymentData =>
        match addPayment st id booking paymentData with
        | Some st' => (st', res_payment_added)
        | None => (st, res_payment_error)
        end
      end
  end.

(** ** [addMessage] and POST /api/bookings/:id/message *)

Definition set_communication (b : Booking) (c : list Message) : Booking :=
  mkBooking (property b) (renter b) (owner b) (startDate b) (endDate b)
    (monthlyRent b) (securityDeposit b) (totalAmount b) (status b) (paymentStatus b)
    (specialRequests b) (paymentHistory b) c.

Definition addMessage (st : Store) (id : ObjectId) (b : Booking) (senderId : ObjectId)
    (msg : string) : option Store :=
  save st id (mkDoc (set_communication b (communication b ++ [mkMessage senderId msg]))
                [path_communication]).

Definition res_message_forbidden : Response :=
  mkResponse 403 false "Not authorized to message for this booking".
Definition res_message_sent : Response :=
  mkResponse 200 true "Message sent successfully".
Definition res_message_error : Response :=
  mkResponse 500 false "Server error sending message".

Definition post_booking_message (st : Store) (user : User) (id : ObjectId)
    (msg : string) : Store * Response :=
  match bookings st !! id with
  | None => (st, res_booking_not_found)
  | Some booking =>
    let isAuthorized :=
      bool_decide (renter booking = u_id user) || bool_decide (owner booking = u_id user) in
    if negb isAuthorized then (st, res_message_forbidden)
    else
      match addMessage st id booking (u_id user) msg with
      | Some st' => (st', res_message_sent)
      | None => (st, res_message_error)
      end
  end.

(** ** The property routes *)

(** The modelled paths of a request body for a property; an absent path is
    [None]. *)
Record PropertyBody := mkPropertyBody {
  body_owner : option ObjectId;
  body_rentPrice : option Z;
  body_securityDeposit : option Z;
  body_isAvailable : option bool
}.

(** The validators of the property schema: [min: 0] on [rentPrice] and
    [securityDeposit]. *)
Definition validate_property (p : Property) : bool :=
  bool_decide (0 <= rentPrice p) && bool_decide (0 <= p_securityDeposit p).

Definition res_validation_error : Response :=
  mkResponse 400 false "Validation error".
Definition res_property_created : Response :=
  mkResponse 201 true "Property created successfully".
Definition res_property_update_forbidden : Response :=
  mkResponse 403 false "Not authorized to update this property".
Definition res_property_updated : Response :=
  mkResponse 200 true "Property updated successfully".
Definition res_property_delete_forbidden : Response :=
  mkResponse 403 false "Not authorized to delete this property".
Definition res_property_deleted : Response :=
  mkResponse 200 true "Property deleted successfully".

(** POST /api/properties: [new Property({ ...req.body, owner: req.user._id })]. *)
Definition post_properties (st : Store) (user : User) (body : PropertyBody)
  : Store * Response :=
  match u_role user with
  | renter_role => (st, res_owner_required)
  | owner_role =>
    match body_rentPrice body, body_securityDeposit body with
    | Some rent, Some deposit =>
      let property_ :=
        mkProperty (u_id user) rent deposit (default true (body_isAvailable body)) in
      if validate_property property_
      then (mkStore (<[new_ObjectId (properties st) := property_]> (properties st))
                    (bookings st),
            res_property_created)
      else (st, res_validation_error)
    | _, _ => (st, res_validation_error)      (* a required path is missing *)
    end
  end.

(** [Object.assign(property, req.body)]. *)
Definition Object_assign (p : Property) (body : PropertyBody) : Property :=
  mkProperty (default (p_owner p) (body_owner body))
             (default (rentPrice p) (body_rentPrice body))
             (default (p_securityDeposit p) (body_securityDeposit body))
             (default (isAvailable p) (body_isAvailable body)).

(** PUT /api/properties/:id. *)
Definition put_property (st : Store) (user : User) (pid : ObjectId) (body : PropertyBody)
  : Store * Response :=
  match u_role user with
  | renter_role => (st, res_owner_required)
  | owner_role =>
    match properties st !! pid with
    | None => (st, res_property_not_found)
    | Some property_ =>
      if negb (bool_decide (p_owner property_ = u_id user))
      then (st, res_property_update_forbidden)
      else
        let property' := Object_assign property_ body in
        if validate_property property'
        then (mkStore (<[pid := property']> (properties st)) (bookings st),
              res_property_updated)
        else (st, res_validation_error)
    end
  end.

(** DELETE /api/properties/:id. *)
Definition delete_property (st : Store) (user : User) (pid : ObjectId)
  : Store * Response :=
  match u_role user with
  | renter_role => (st, res_owner_required)
  | owner_role =>
    match properties st !! pid with
    | None => (st, res_property_not_found)
    | Some property_ =>
      if negb (bool_decide (p_owner property_ = u_id user))
      then (st, res_property_delete_forbidden)
      else (mkStore (delete pid (properties st)) (bookings st), res_property_deleted)
    end
  end.

(** ** The server: requests, one after the other *)

Inductive Request :=
  | POST_bookings (user : User) (r : CreateRequest)
  | PUT_booking_status (user : User) (id : ObjectId) (status_ : string)
  | POST_booking_payment (user : User) (id : ObjectId) (r : PaymentRequest)
  | POST_booking_message (user : User) (id : ObjectId) (msg : string)
  | POST_properties (user : User) (body : PropertyBody)
  | PUT_property (user : User) (pid : ObjectId) (body : PropertyBody)
  | DELETE_property (user : User) (pid : ObjectId).

Definition handle (st : Store) (rq : Request) : Store * Response :=
  match rq with
  | POST_bookings user r => post_bookings st user r
  | PUT_booking_status user id s => put_booking_status st user id s
  | POST_booking_payment user id r => post_booking_payment st user id r
  | POST_booking_message user id msg => post_booking_message st user id msg
  | POST_properties user body => post_properties st user body
  | PUT_property user pid body => put_property st user pid body
  | DELETE_property user pid => delete_property st user pid
  end.

(** The store after a sequence of requests. *)
Definition run (st : Store) (rqs : list Request) : Store :=
  fold_left (λ s rq, (handle s rq).1) rqs st.

(** A database to start from.  Its properties pass the validators of their
    schema; its bookings pass those of theirs and have no payment yet, as
    the schema's defaults have it. *)
Definition seeded (st : Store) : Prop :=
  (∀ id b, bookings st !! id = Some b →
           validate b = true ∧ paymentStatus b = pay_pending ∧ paymentHistory b = []) ∧
  (∀ pid p, properties st !! pid = Some p → validate_property p = true).

(** The stores the server can be in: those a sequence of requests builds
    from a database to start from, the empty one for instance. *)
Definition reachable (st : Store) : Prop :=
  ∃ st0 rqs, seeded st0 ∧ st = run st0 rqs.

(** The safe integers of a double, [Number.MAX_SAFE_INTEGER] and below. *)
Definition MAX_SAFE_INTEGER : Z := 2 ^ 53 - 1.

Definition safe_integer (n : Z) : Prop := Z.abs n <= MAX_SAFE_INTEGER.

(** Every number the hook computes for a booking is a safe integer. *)
Definition exact_pricing (b : Booking) : Prop :=
  safe_integer (endDate b - startDate b) ∧
  safe_integer (monthlyRent b * durationInMonths b) ∧
  safe_integer (monthlyRent b * durationInMonths b + securityDeposit b).

(** The absolute amounts of a history, added up: a bound on every sum the
    [reduce] of [addPayment] goes through. *)
Definition sum_abs (history : list Payment) : Z :=
  fold_left (λ sum payment, sum + Z.abs (amount payment)) history 0.

(** ** The claims' vocabulary *)

(** Half-open overlap, in the spec's words: [s1 < e2 AND s2 < e1]. *)
Definition overlap_half_open (s1 e1 s2 e2 : Date) : Prop := s1 < e2 ∧ s2 < e1.

(** Closed overlap, the query's [$lte] and [$gte]. *)
Definition overlap_closed (s1 e1 s2 e2 : Date) : Prop := s1 <= e2 ∧ s2 <= e1.

(** The statuses that take part in the conflict check. *)
Definition participates (b : Booking) : Prop := status b = approved ∨ status b = active.

(** The transition table of the spec's state machine. *)
Definition legal_transition (from to : BookingStatus) : bool :=
  match from, to with
  | pending, approved | pending, rejected
  | approved, active | approved, cancelled
  | active, completed | active, cancelled => true
  | _, _ => false
  end.

(** The order pending, partial, paid of the payment status. *)
Definition ps_rank (ps : PaymentStatus) : option nat :=
  match ps with
  | pay_pending => Some 0%nat
  | partial => Some 1%nat
  | paid => Some 2%nat
  | overdue => None
  end.

Definition ps_le (a b : PaymentStatus) : Prop :=
  match ps_rank a, ps_rank b with
  | Some x, Some y => (x <= y)%nat
  | _, _ => False
  end.

(** The payment status the spec derives from the cumulative amount. *)
Definition paymentStatus_spec (cumulative total : Z) : option PaymentStatus :=
  if bool_decide (cumulative >= total) then Some paid
  else if bool_decide (0 < cumulative) then Some partial
  else if bool_decide (cumulative = 0) then Some pay_pending
  else None.

(** A calendar of 2024 for the examples, in milliseconds since 1 January. *)
Definition day (n : Z) : Date := n * MS_PER_DAY.
Definition Jan_1 : Date := day 0.
Definition Feb_1 : Date := day 31.
Definition Mar_1 : Date := day 60.

(** ** Invariants of the store *)

(** The terms of a booking: the paths no route assigns after creation. *)
Definition terms (b : Booking) : ObjectId * ObjectId * ObjectId * Date * Date * Z * Z * option Z :=
  (property b, renter b, owner b, startDate b, endDate b,
   monthlyRent b, securityDeposit b, totalAmount b).

(** [totalAmount] is what the hook computes from the booking's own paths. *)
Definition priced (b : Booking) : Prop :=
  totalAmount b = Some (monthlyRent b * durationInMonths b + securityDeposit b).

(** While no negative amount was entered, the payment status agrees with
    the sum of the history; ['overdue'] is never assigned. *)
Definition ledger_ok (b : Booking) : Prop :=
  paymentStatus b ≠ overdue ∧
  (Forall (λ p, 0 <= amount p) (paymentHistory b) →
   match paymentStatus b with
   | pay_pending => True
   | partial => 0 < totalPaid (paymentHistory b)
   | paid => covers (totalPaid (paymentHistory b)) (totalAmount b) = true
   | overdue => False
   end).

Definition store_ok (st : Store) : Prop :=
  (∀ id b, bookings st !! id = Some b → validate b = true ∧ ledger_ok b) ∧
  (∀ pid p, properties st !! pid = Some p → validate_property p = true).

(** What one request can do to a stored booking. *)
Inductive booking_step (b : Booking) : Booking → Prop :=
  | step_same : booking_step b b
  | step_status s : booking_step b (set_status b s)
  | step_payment p : booking_step b (addPayment_fields b p)
  | step_message m : booking_step b (set_communication b (communication b ++ [m])).

(** ** A scenario for the examples

    The owner lists a property (rent 1000, deposit 500); it gets the id 1.
    The bookings of the examples are in the database from the start, under
    the ids 1 and 2 of their collection. *)

(** The same database with one more booking. *)
Definition with_booking (st : Store) (id : ObjectId) (b : Booking) : Store :=
  mkStore (properties st) (<[id := b]> (bookings st)).

Definition the_owner : User := mkUser 10 owner_role.
Definition a_renter : User := mkUser 20 renter_role.
Definition another_renter : User := mkUser 21 renter_role.

Definition listing : PropertyBody := mkPropertyBody None (Some 1000) (Some 500) None.
Definition relisting : PropertyBody := mkPropertyBody None None None (Some true).

Definition stay (s e : Date) : CreateRequest := mkCreateRequest 1 s e "".

Definition pays (a : Z) : PaymentRequest := mkPaymentRequest a (Some "cash") "" "".

(** The property is listed and nothing else happened. *)
Definition st_listed : Store := run empty_store [POST_properties the_owner listing].

(** A renter's request for 1 January to 1 March: 60 days, two months, 2500. *)
Definition the_request : Booking :=
  mkBooking 1 20 10 Jan_1 Mar_1 1000 500 (Some 2500) pending pay_pending "" [] [].

Definition st_requested : Store := with_booking st_listed 1 the_request.

Definition st_approved : Store :=
  run st_requested [PUT_booking_status the_owner 1 "approved"].

(** An approved booking for 1 January to 1 February, and the owner has
    marked the property available again. *)
Definition st_january : Store :=
  run (with_booking st_listed 1
         (mkBooking 1 20 10 Jan_1 Feb_1 1000 500 (Some 2500) pending pay_pending
            "" [] []))
      [PUT_booking_status the_owner 1 "approved";
       PUT_property the_owner 1 relisting].

Definition january_booking : Booking :=
  mkBooking 1 20 10 Jan_1 Feb_1 1000 500 (Some 2500) approved pay_pending "" [] [].

(** The renter paid 100 on the pending request. *)
Definition st_paid_100 : Store :=
  run st_requested [POST_booking_payment a_renter 1 (pays 100)].

(** The renter paid the whole 2500 on the pending request. *)
Definition st_paid_in_full : Store :=
  run st_requested [POST_booking_payment a_renter 1 (pays 2500)].

(** ** [authMiddleware] *)

(** [str.replace(pattern, replacement)] with a string pattern: the first
    occurrence is replaced, wherever it is. *)
Definition String_replace (pattern replacement s : string) : string :=
  match String.index 0 pattern s with
  | Some n =>
    String.substring 0 n s +:+ replacement
    +:+ String.substring (n + String.length pattern)
          (String.length s - (n + String.length pattern)) s
  | None => s
  end.

(** What [jwt.verify(token, process.env.JWT_SECRET)] does: it returns the
    payload, of which the middleware reads [userId], or it throws. *)
Inductive JwtResult :=
  | jwt_decoded (userId : ObjectId)
  | JsonWebTokenError
  | TokenExpiredError
  | jwt_other_error.

(** A middleware either calls [next()], with [req.user] set, or answers. *)
Inductive Middleware :=
  | next (user : User)
  | respond (res : Response).

Definition res_no_token : Response :=
  mkResponse 401 false "No token provided, authorization denied".
Definition res_token_not_valid : Response :=
  mkResponse 401 false "Token is not valid".
Definition res_invalid_token : Response :=
  mkResponse 401 false "Invalid token".
Definition res_token_expired : Response :=
  mkResponse 401 false "Token expired".
Definition res_auth_error : Response :=
  mkResponse 500 false "Server error during authentication".

(** [authMiddleware]; [jwt_verify] stands for the library call with the
    secret, [users] for the user collection (the role of each id), and
    [authorization] for [req.header('Authorization')]. *)
Definition authMiddleware (jwt_verify : string → JwtResult)
    (users : gmap positive Role) (authorization : option string) : Middleware :=
  let token := String_replace "Bearer " "" <$> authorization in
  match token with
  | None => respond res_no_token
  | Some token =>
    if String.eqb token "" then respond res_no_token
    else
      match jwt_verify token with
      | jwt_decoded userId =>
        match users !! userId with
        | None => respond res_token_not_valid
        | Some role => next (mkUser userId role)
        end
      | JsonWebTokenError => respond res_invalid_token
      | TokenExpiredError => respond res_token_expired
      | jwt_other_error => respond res_auth_error
      end
  end.

(** A route behind [authMiddleware]: the handlers of [handle] run with the
    user the middleware found. *)
Definition route (jwt_verify : string → JwtResult) (users : gmap positive Role)
    (st : Store) (authorization : option string) (call : User → Request)
  : Store * Response :=
  match authMiddleware jwt_verify users authorization with
  | next user => handle st (call user)
  | respond res => (st, res)
  end.

(** ** GET /api/bookings and GET /api/bookings/:id *)

(** The query string: [page] and [limit] are positive integers when present
    (defaults 1 and 10), [status] is any string. *)
Record ListQuery := mkListQuery {
  q_page : option positive;
  q_limit : option positive;
  q_status : option string
}.

(** The [filter] object the handler builds. *)
Definition bookings_filter (user : User) (status_ : option string) (b : Booking) : bool :=
  match u_role user with
  | renter_role => bool_decide (renter b = u_id user)
  | owner_role => bool_decide (owner b = u_id user)
  end
  && match status_ with
     | None => true
     | Some s =>
       if String.eqb s "" then true              (* [if (status)]: '' is falsy *)
       else bool_decide (castStatus s = Some (status b))
     end.

(** [.limit(limit * 1).skip((page - 1) * limit)]: the driver skips, then
    limits. *)
Definition paginate {A} (page limit : positive) (l : list A) : list A :=
  take (Pos.to_nat limit) (drop ((Pos.to_nat page - 1) * Pos.to_nat limit) l).

(** [Math.ceil(total / limit)]. *)
Definition totalPages_of (total : nat) (limit : positive) : Z :=
  Math_ceil (inject_Z (Z.of_nat total) / inject_Z (Z.pos limit))%Q.

Record Pagination := mkPagination {
  currentPage : Z;
  totalPages : Z;
  totalBookings : Z
}.

(** GET /api/bookings; [sorted] is the collection in the order of
    [.sort({ createdAt: -1 })]. *)
Definition get_bookings (sorted : list Booking) (user : User) (q : ListQuery)
  : list Booking * Pagination :=
  let page := default 1%positive (q_page q) in
  let limit := default 10%positive (q_limit q) in
  let matching := List.filter (bookings_filter user (q_status q)) sorted in
  let total := length matching in
  (paginate page limit matching,
   mkPagination (Z.pos page) (totalPages_of total limit) (Z.of_nat total)).

Definition res_view_forbidden : Response :=
  mkResponse 403 false "Not authorized to view this booking".
(** [res.json({ success: true, ... })] without a message. *)
Definition res_ok : Response := mkResponse 200 true "".

(** GET /api/bookings/:id: the response and the booking it carries. *)
Definition get_booking (st : Store) (user : User) (id : ObjectId)
  : Response * option Booking :=
  match bookings st !! id with
  | None => (res_booking_not_found, None)
  | Some booking =>
    let isAuthorized :=
      bool_decide (renter booking = u_id user) || bool_decide (owner booking = u_id user) in
    if negb isAuthorized then (res_view_forbidden, None)
    else (res_ok, Some booking)
  end.

(** ** GET /api/properties *)

(** A property document with the paths the listing filters on. *)
Record PropertyDoc := mkPropertyDoc {
  pd_property : Property;          (* owner, rentPrice, securityDeposit, isAvailable *)
  title : string;
  pd_description : string;
  city : string;                   (* address.city *)
  state : string;                  (* address.state *)
  propertyType : string;
  bedrooms : Z;
  bathrooms : Q;
  isActive : bool
}.

(** The query string.  A number is [None] when its parameter is absent or
    empty, and is numeric otherwise. *)
Record PropertyQuery := mkPropertyQuery {
  pq_page : option positive;
  pq_limit : option positive;
  pq_search : option string;
  pq_propertyType : option string;
  pq_minPrice : option Z;
  pq_maxPrice : option Z;
  pq_bedrooms : option Z;
  pq_bathrooms : option Q;
  pq_city : option string;
  pq_state : option string;
  pq_isAvailable : option string
}.

(** [if (param)] on a string of the query: absent and '' are falsy. *)
Definition truthy (param : option string) : option string :=
  match param with
  | Some s => if String.eqb s "" then None else Some s
  | None => None
  end.

(** [if (param) ... else true] for one condition of the filter. *)
Definition when {A} (param : option A) (cond : A → bool) : bool :=
  match param with
  | Some a => cond a
  | None => true
  end.

(** The [filter] object of the listing; [regex pattern subject] stands for
    [{ $regex: pattern, $options: 'i' }] on a path.  The default of
    [isAvailable] is the boolean [true], which is not the string ['true']. *)
Definition properties_filter (regex : string → string → bool) (q : PropertyQuery)
    (d : PropertyDoc) : bool :=
  isActive d
  && when (pq_isAvailable q)
       (λ v, if String.eqb v "true" then isAvailable (pd_property d) else true)
  && when (truthy (pq_search q))
       (λ search, regex search (title d) || regex search (pd_description d)
                  || regex search (city d) || regex search (state d))
  && when (truthy (pq_propertyType q)) (λ t, String.eqb (propertyType d) t)
  && when (pq_minPrice q) (λ m, bool_decide (m <= rentPrice (pd_property d)))
  && when (pq_maxPrice q) (λ m, bool_decide (rentPrice (pd_property d) <= m))
  && when (pq_bedrooms q) (λ n, bool_decide (bedrooms d = n))
  && when (pq_bathrooms q) (λ n, Qle_bool n (bathrooms d))
  && when (truthy (pq_city q)) (λ c, regex c (city d))
  && when (truthy (pq_state q)) (λ c, regex c (state d)).

Record PropertyPagination := mkPropertyPagination {
  pp_currentPage : Z;
  pp_totalPages : Z;
  totalProperties : Z;
  hasNextPage : bool;
  hasPrevPage : bool
}.

(** GET /api/properties; [sorted] is the collection in the order of
    [.sort({ createdAt: -1 })]. *)
Definition get_properties (regex : string → string → bool) (sorted : list PropertyDoc)
    (q : PropertyQuery) : list PropertyDoc * PropertyPagination :=
  let page := default 1%positive (pq_page q) in
  let limit := default 10%positive (pq_limit q) in
  let matching := List.filter (properties_filter regex q) sorted in
  let total := length matching in
  (paginate page limit matching,
   mkPropertyPagination (Z.pos page) (totalPages_of total limit) (Z.of_nat total)
     (bool_decide (Z.pos page < totalPages_of total limit))
     (bool_decide (Z.pos page > 1))).

(** Two renters asked for overlapping stays on the same property; both
    requests are pending. *)
Definition st_two_requests : Store :=
  with_booking st_requested 2
    (mkBooking 1 21 10 Feb_1 Mar_1 1000 500 (Some 1500) pending pay_pending "" [] []).

(** The owner, the rent and the deposit of a property: what the booking
    routes leave alone. *)
Definition listing_terms (p : Property) : ObjectId * Z * Z :=
  (p_owner p, rentPrice p, p_securityDeposit p).

(** A request body that hands the property over to the user 11. *)
Definition handover : PropertyBody := mkPropertyBody (Some 11%positive) None None None.

(** A token service and a user collection for the examples: the token
    ["t20"] is the renter 20's, ["t10"] the owner 10's, ["old"] has expired. *)
Definition demo_jwt (token : string) : JwtResult :=
  if String.eqb token "t20" then jwt_decoded 20
  else if String.eqb token "t10" then jwt_decoded 10
  else if String.eqb token "old" then TokenExpiredError
  else JsonWebTokenError.

Definition demo_users : gmap positive Role :=
  {[ 10%positive := owner_role; 20%positive := renter_role ]}.

(** The page [i + 1] of a listing, for [i] counted from 0. *)
Definition nth_page {A} (limit : positive) (l : list A) (i : nat) : list A :=
  paginate (Pos.of_nat (S i)) limit l.

Definition with_isAvailable (v : bool) (d : PropertyDoc) : PropertyDoc :=
  mkPropertyDoc (set_isAvailable v (pd_property d)) (title d) (pd_description d)
    (city d) (state d) (propertyType d) (bedrooms d) (bathrooms d) (isActive d).

(** The same query for another page. *)
Definition with_page (page : positive) (q : PropertyQuery) : PropertyQuery :=
  mkPropertyQuery (Some page) (pq_limit q) (pq_search q) (pq_propertyType q)
    (pq_minPrice q) (pq_maxPrice q) (pq_bedrooms q) (pq_bathrooms q)
    (pq_city q) (pq_state q) (pq_isAvailable q).

(** A query with no parameter at all, and a regular expression that
    matches nothing. *)
Definition plain_query : PropertyQuery :=
  mkPropertyQuery None None None None None None None None None None None.

Definition no_match (pattern subject : string) : bool := false.

Definition a_flat : PropertyDoc :=
  mkPropertyDoc (mkProperty 10 1000 500 false) "Flat" "Two rooms" "Lagos" "Lagos"
    "apartment" 2 1 true.

(** The requests of the booking router. *)
Definition is_booking_route (rq : Request) : bool :=
  match rq with
  | POST_bookings _ _ | PUT_booking_status _ _ _
  | POST_booking_payment _ _ _ | POST_booking_message _ _ _ => true
  | POST_properties _ _ | PUT_property _ _ _ | DELETE_property _ _ => false
  end.

(** The stored request with its end date moved to 2 March and not yet
    saved: the total is still the one of the two months. *)
Definition extended_stay : Doc :=
  mkDoc (mkBooking 1 20 10 Jan_1 (day 61) 1000 500 (Some 2500) pending pay_pending
           "" [] [])
        [path_endDate].

(** The one request that adds a property. *)
Definition creates_property (rq : Request) : bool :=
  match rq with
  | POST_properties _ _ => true
  | _ => false
  end.

(** ** Arithmetic of the month count *)

Lemma Qceiling_quot (a : Z) (p : positive) :
  Qceiling (inject_Z a / inject_Z (Z.pos p))%Q = - ((- a) / Z.pos p).
Proof.
  unfold Qceiling, Qfloor, Qdiv, Qmult, Qinv, Qopp, inject_Z; simpl.
  rewrite Z.mul_1_r. reflexivity.
Qed.

Lemma durationInMonths_eq (b : Booking) :
  durationInMonths b = - ((startDate b - endDate b) / MS_PER_MONTH).
Proof.
  unfold durationInMonths, Math_ceil.
  change MS_PER_MONTH with (Z.pos 2592000000).
  rewrite Qceiling_quot. f_equal. f_equal. lia.
Qed.

Lemma months_spec_eq (s e : Date) :
  months_spec s e = - ((s - e) / MS_PER_MONTH).
Proof.
  unfold months_spec, span_in_days.
  replace (s - e) with (- (e - s)) by lia.
  change MS_PER_MONTH with (Z.pos 2592000000).
  rewrite <- Qceiling_quot.
  apply Qceiling_comp.
  change MS_PER_DAY with (Z.pos 86400000).
  unfold Qeq, Qdiv, Qmult, Qinv, inject_Z; simpl. lia.
Qed.

(** ** The query *)

Lemma findOne_Some {A} (f : A → bool) (m : gmap positive A) (x : A) :
  findOne f m = Some x → f x = true ∧ ∃ id, m !! id = Some x.
Proof.
  unfold findOne. destruct (List.find _ _) as [[id y]|] eqn:E; [|discriminate].
  intros [= <-]. apply find_some in E as [Hin Hf]. split; [exact Hf|].
  exists id. apply elem_of_map_to_list, list_elem_of_In, Hin.
Qed.

Lemma findOne_None {A} (f : A → bool) (m : gmap positive A) :
  findOne f m = None ↔ ∀ id x, m !! id = Some x → f x = false.
Proof.
  unfold findOne. split.
  - destruct (List.find _ _) eqn:E; [discriminate|]. intros _ id x Hx.
    apply (find_none _ _ E (id, x)).
    apply list_elem_of_In, elem_of_map_to_list, Hx.
  - intros H. destruct (List.find _ _) as [[id y]|] eqn:E; [|reflexivity].
    apply find_some in E as [Hin Hf].
    apply list_elem_of_In, elem_of_map_to_list, H in Hin. simpl in Hf. congruence.
Qed.

Lemma conflict_filter_true (pid : positive) (s e : Z) (b : Booking) :
  conflict_filter pid s e b = true ↔
  property b = pid ∧ participates b ∧ overlap_closed (startDate b) (endDate b) s e.
Proof.
  unfold conflict_filter, participates, overlap_closed.
  rewrite !andb_true_iff, !bool_decide_eq_true.
  rewrite !elem_of_cons, elem_of_nil. intuition lia.
Qed.

(** ** What [save] writes *)

Lemma save_Some (st st' : Store) (id : positive) (d : Doc) :
  save st id d = Some st' →
  validate (fields d) = true ∧
  st' = mkStore (properties st) (<[id := fields (pre_save d)]> (bookings st)).
Proof.
  unfold save. destruct (validate _); [|discriminate]. intros [= <-]. auto.
Qed.

(** The document the creation route builds has no [totalAmount] when the
    validators look at it. *)
Lemma save_new_Booking (st : Store) (id pid uid : positive) (p : Property)
    (r : CreateRequest) :
  save st id (new_Booking pid uid p r) = None.
Proof.
  unfold save, validate. simpl. by rewrite andb_false_r.
Qed.

Lemma post_bookings_stores_nothing (st : Store) (user : User) (r : CreateRequest) :
  (post_bookings st user r).1 = st.
Proof.
  unfold post_bookings. repeat case_match; simpl; try done.
  match goal with H : save _ _ _ = Some _ |- _ =>
    by rewrite save_new_Booking in H end.
Qed.

Lemma new_ObjectId_fresh {A} (m : gmap positive A) : m !! new_ObjectId m = None.
Proof. apply not_elem_of_dom, is_fresh. Qed.

(** ** One request and the stored bookings *)

Ltac crack_save :=
  repeat match goal with
  | H : save _ _ _ = Some _ |- _ =>
      apply save_Some in H as [? ->]; simpl in *
  | H : addPayment _ _ _ _ = Some _ |- _ => unfold addPayment in H
  | H : addMessage _ _ _ _ _ = Some _ |- _ => unfold addMessage in H
  end.

Ltac crack_handler :=
  repeat (case_match; simpl in *; simplify_eq; crack_save; try done).

Lemma pre_save_status (b : Booking) (s : BookingStatus) :
  pre_save (mkDoc (set_status b s) [path_status]) = mkDoc (set_status b s) [path_status].
Proof. reflexivity. Qed.

Lemma pre_save_payment (b : Booking) :
  pre_save (mkDoc b [path_paymentHistory; path_paymentStatus])
  = mkDoc b [path_paymentHistory; path_paymentStatus].
Proof. reflexivity. Qed.

Lemma pre_save_message (b : Booking) :
  pre_save (mkDoc b [path_communication]) = mkDoc b [path_communication].
Proof. reflexivity. Qed.

(** A stored booking is never removed, and a request changes it in one of
    three ways at most. *)
Lemma handle_stored (st : Store) (rq : Request) (id : positive) (b : Booking) :
  bookings st !! id = Some b →
  ∃ b', bookings (handle st rq).1 !! id = Some b' ∧ booking_step b b'.
Proof.
  intros Hb.
  assert (Hsame : ∃ b', bookings st !! id = Some b' ∧ booking_step b b')
    by (exists b; split; [done|constructor]).
  destruct rq as [u r|u id' s|u id' r|u id' msg|u body|u pid body|u pid];
    simpl.
  - by rewrite post_bookings_stores_nothing.
  - unfold put_booking_status. crack_handler.
    all: destruct (decide (id' = id)) as [->|Hne];
      [rewrite lookup_insert_eq; simplify_eq; eexists; split; [done|constructor]
      |rewrite lookup_insert_ne by done; done].
  - unfold post_booking_payment. crack_handler.
    destruct (decide (id' = id)) as [->|Hne];
      [rewrite lookup_insert_eq; simplify_eq; eexists; split; [done|constructor]
      |rewrite lookup_insert_ne by done; done].
  - unfold post_booking_message. crack_handler.
    destruct (decide (id' = id)) as [->|Hne];
      [rewrite lookup_insert_eq; simplify_eq; eexists; split; [done|constructor]
      |rewrite lookup_insert_ne by done; done].
  - unfold post_properties. crack_handler.
  - unfold put_property. crack_handler.
  - unfold delete_property. crack_handler.
Qed.

(** No request stores a booking under an id that had none. *)
Lemma handle_creates_nothing (st : Store) (rq : Request) (id : positive) :
  bookings st !! id = None →
  bookings (handle st rq).1 !! id = None.
Proof.
  intros Hnone.
  destruct rq as [u r|u id' s|u id' r|u id' msg|u body|u pid body|u pid];
    simpl.
  - by rewrite post_bookings_stores_nothing.
  - unfold put_booking_status. crack_handler.
    all: destruct (decide (id' = id)) as [->|Hne]; [congruence|];
      by rewrite lookup_insert_ne.
  - unfold post_booking_payment. crack_handler.
    destruct (decide (id' = id)) as [->|Hne]; [congruence|];
      by rewrite lookup_insert_ne.
  - unfold post_booking_message. crack_handler.
    destruct (decide (id' = id)) as [->|Hne]; [congruence|];
      by rewrite lookup_insert_ne.
  - unfold post_properties. crack_handler.
  - unfold put_property. crack_handler.
  - unfold delete_property. crack_handler.
Qed.

Lemma booking_step_terms (b b' : Booking) : booking_step b b' → terms b' = terms b.
Proof. destruct 1; reflexivity. Qed.

Lemma terms_validate (b b' : Booking) :
  terms b' = terms b → validate b = true → validate b' = true.
Proof.
  unfold terms, validate. intros [= ? ? ? Hs He Hr Hd Ht].
  rewrite Ht, Hr, Hd. done.
Qed.

(** ** The ledger *)

Lemma totalPaid_snoc (h : list Payment) (p : Payment) :
  totalPaid (h ++ [p]) = totalPaid h + amount p.
Proof. unfold totalPaid. rewrite fold_left_app. reflexivity. Qed.

Lemma covers_mono (x y : Z) (t : option Z) :
  x <= y → covers x t = true → covers y t = true.
Proof.
  destruct t as [t|]; simpl; [|done].
  rewrite !bool_decide_eq_true. lia.
Qed.

Lemma addPayment_fields_ledger_ok (b : Booking) (p : Payment) :
  ledger_ok b → ledger_ok (addPayment_fields b p).
Proof.
  intros [Hno Hb]. unfold ledger_ok, addPayment_fields. simpl.
  rewrite totalPaid_snoc.
  destruct (covers (_ + _) _) eqn:Hc; [split; [done|]; done|].
  case_bool_decide as Hpos; [split; [done|]; intros; lia|].
  split; [done|]. intros Hall. apply Forall_app in Hall as [Hall Hp].
  apply Forall_inv in Hp. specialize (Hb Hall).
  destruct (paymentStatus b); try done.
  - lia.
  - apply (covers_mono _ (totalPaid (paymentHistory b) + amount p)) in Hb; [|lia].
    congruence.
Qed.

Lemma booking_step_ledger_ok (b b' : Booking) :
  booking_step b b' → ledger_ok b → ledger_ok b'.
Proof. destruct 1; try done. apply addPayment_fields_ledger_ok. Qed.

(** ** The store invariant *)

Lemma handle_properties_ok (st : Store) (rq : Request) :
  (∀ pid p, properties st !! pid = Some p → validate_property p = true) →
  ∀ pid p, properties (handle st rq).1 !! pid = Some p → validate_property p = true.
Proof.
  intros Hok pid p.
  destruct rq as [u r|u id' s|u id' r|u id' msg|u body|u pid' body|u pid'];
    simpl.
  - unfold post_bookings. crack_handler; eauto.
  - unfold put_booking_status. crack_handler; eauto.
    all: rewrite lookup_alter; destruct (decide (_ = pid)) as [<-|]; eauto.
    all: destruct (properties st !! _) as [q|] eqn:Hq; simpl; [|done].
    all: intros [= <-]; apply Hok in Hq; exact Hq.
  - unfold post_booking_payment. crack_handler; eauto.
  - unfold post_booking_message. crack_handler; eauto.
  - unfold post_properties. crack_handler; eauto.
    rewrite lookup_insert. destruct (decide (_ = pid)); eauto. intros [= <-]. done.
  - unfold put_property. crack_handler; eauto.
    rewrite lookup_insert. destruct (decide (_ = pid)); eauto. intros [= <-]. done.
  - unfold delete_property. crack_handler; eauto.
    rewrite lookup_delete. destruct (decide (_ = pid)); eauto. done.
Qed.

Lemma handle_ok (st : Store) (rq : Request) : store_ok st → store_ok (handle st rq).1.
Proof.
  intros [Hb Hp]. split; [|by apply handle_properties_ok].
  intros id b' Hb'.
  destruct (bookings st !! id) as [b|] eqn:Hid.
  - destruct (handle_stored st rq id b Hid) as (b'' & Hb'' & Hstep).
    rewrite Hb' in Hb''. simplify_eq.
    destruct (Hb id b Hid) as (Hv & Hl).
    pose proof (booking_step_terms _ _ Hstep) as Ht.
    split; [by eapply terms_validate|by eapply booking_step_ledger_ok].
  - by rewrite (handle_creates_nothing st rq id Hid) in Hb'.
Qed.

Lemma run_snoc (st : Store) (rqs : list Request) (rq : Request) :
  run st (rqs ++ [rq]) = (handle (run st rqs) rq).1.
Proof. unfold run. rewrite fold_left_app. reflexivity. Qed.

Lemma run_ok (st : Store) (rqs : list Request) : store_ok st → store_ok (run st rqs).
Proof.
  revert st. induction rqs as [|rq rqs IH]; intros st Hst; [done|].
  simpl. apply IH, handle_ok, Hst.
Qed.

Lemma seeded_ok (st : Store) : seeded st → store_ok st.
Proof.
  intros [Hb Hp]. split; [|exact Hp].
  intros id b Hid. destruct (Hb id b Hid) as (Hv & Hps & Hh).
  split; [exact Hv|]. unfold ledger_ok. rewrite Hps. by split.
Qed.

Lemma reachable_ok (st : Store) : reachable st → store_ok st.
Proof. intros (st0 & rqs & Hseed & ->). by apply run_ok, seeded_ok. Qed.

Lemma reachable_handle (st : Store) (rq : Request) :
  reachable st → reachable (handle st rq).1.
Proof.
  intros (st0 & rqs & Hseed & ->). exists st0, (rqs ++ [rq]).
  split; [exact Hseed|]. by rewrite run_snoc.
Qed.

Lemma reachable_run (st : Store) (rqs : list Request) :
  reachable st → reachable (run st rqs).
Proof.
  revert st. induction rqs as [|rq rqs IH]; intros st Hst; [done|].
  simpl. apply IH, reachable_handle, Hst.
Qed.

Lemma seeded_reachable (st : Store) : seeded st → reachable st.
Proof. intros Hseed. by exists st, []. Qed.

Lemma reachable_empty : reachable empty_store.
Proof.
  apply seeded_reachable. split; intros ? ?; simpl; rewrite lookup_empty; done.
Qed.

(** A seeded property collection with one fresh booking more is seeded. *)
Lemma with_booking_seeded (st : Store) (id : positive) (b : Booking) :
  (∀ pid p, properties st !! pid = Some p → validate_property p = true) →
  (∀ id' b', bookings st !! id' = Some b' →
             validate b' = true ∧ paymentStatus b' = pay_pending
             ∧ paymentHistory b' = []) →
  validate b = true → paymentStatus b = pay_pending → paymentHistory b = [] →
  seeded (with_booking st id b).
Proof.
  intros Hp Hb Hv Hps Hh. split; [|exact Hp].
  intros id' b'. simpl. rewrite lookup_insert.
  destruct (decide (id = id')); [by intros [= <-]|apply Hb].
Qed.

Lemma st_listed_properties_valid (pid : positive) (p : Property) :
  properties st_listed !! pid = Some p → validate_property p = true.
Proof.
  intros Hp. apply elem_of_map_to_list in Hp.
  change (map_to_list (properties st_listed))
    with [(1%positive, mkProperty 10 1000 500 true)] in Hp.
  apply list_elem_of_singleton in Hp. by injection Hp as _ ->.
Qed.

Lemma st_requested_seeded : seeded st_requested.
Proof.
  apply with_booking_seeded; [apply st_listed_properties_valid| |done|done|done].
  intros id' b' Hb. apply elem_of_map_to_list in Hb.
  change (map_to_list (bookings st_listed)) with (@nil (positive * Booking)) in Hb.
  by apply elem_of_nil in Hb.
Qed.

Lemma st_two_requests_seeded : seeded st_two_requests.
Proof.
  apply with_booking_seeded;
    [apply st_listed_properties_valid|apply st_requested_seeded|done|done|done].
Qed.

(** ** The conflict check *)

Lemma conflictingBooking_Some_iff (st : Store) (pid : positive) (s e : Z) :
  is_Some (conflictingBooking st pid s e) ↔
  ∃ id b, bookings st !! id = Some b ∧ property b = pid ∧ participates b
          ∧ overlap_closed (startDate b) (endDate b) s e.
Proof.
  unfold conflictingBooking. split.
  - intros [b Hb]. apply findOne_Some in Hb as [Hf [id Hid]].
    apply conflict_filter_true in Hf. exists id, b. tauto.
  - intros (id & b & Hid & Hb).
    destruct (findOne _ _) eqn:E; [by eexists|].
    rewrite findOne_None in E. specialize (E id b Hid).
    apply conflict_filter_true in Hb. congruence.
Qed.

Lemma post_bookings_conflict_iff (st : Store) (user : User) (r : CreateRequest)
    (p : Property) :
  u_role user = renter_role →
  properties st !! propertyId r = Some p →
  isAvailable p = true →
  (post_bookings st user r).2 = res_booking_conflict ↔
  is_Some (conflictingBooking st (propertyId r) (req_startDate r) (req_endDate r)).
Proof.
  intros Hrole Hp Hav. unfold post_bookings. rewrite Hrole, Hp, Hav. simpl.
  destruct (conflictingBooking _ _ _ _) as [b|]; simpl.
  - split; [by eexists|done].
  - split; [|by intros [? ?]].
    destruct (save _ _ _); simpl; discriminate.
Qed.

(** C1, as the code has it: with the property found and available, creation
    answers "already booked" exactly when some approved or active booking on
    the property satisfies [startDate <= end] and [endDate >= start] of the
    request, a closed-interval overlap, so that ranges which share only an
    endpoint conflict. *)
Theorem conflict_check_is_closed_overlap (st : Store) (user : User)
    (r : CreateRequest) (p : Property) :
  u_role user = renter_role →
  properties st !! propertyId r = Some p →
  isAvailable p = true →
  (post_bookings st user r).2 = res_booking_conflict ↔
  ∃ id b, bookings st !! id = Some b ∧ property b = propertyId r ∧ participates b
          ∧ overlap_closed (startDate b) (endDate b) (req_startDate r) (req_endDate r).
Proof.
  intros Hrole Hp Hav.
  rewrite (post_bookings_conflict_iff st user r p Hrole Hp Hav).
  apply conflictingBooking_Some_iff.
Qed.

Lemma conflict_check_is_closed_overlap_witness :
  (post_bookings st_january another_renter (stay Feb_1 Mar_1)).2 = res_booking_conflict.
Proof.
  apply (conflict_check_is_closed_overlap st_january another_renter (stay Feb_1 Mar_1)
           (mkProperty 10 1000 500 true)); [reflexivity|reflexivity|reflexivity|].
  exists 1%positive, january_booking.
  split; [reflexivity|]. split; [reflexivity|].
  split; [left; reflexivity|]. split; vm_compute; discriminate.
Defined.

(** C1, the claim's own example fails: the only booking of the property is
    the approved one for 1 January to 1 February, the request is for
    1 February to 1 March, the two ranges do not overlap as half-open
    intervals, and creation is refused as a conflict. *)
Lemma touching_ranges_conflict :
  map_to_list (bookings st_january) = [(1%positive, january_booking)] ∧
  (startDate january_booking, endDate january_booking) = (Jan_1, Feb_1) ∧
  ¬ overlap_half_open Jan_1 Feb_1 Feb_1 Mar_1 ∧
  handle st_january (POST_bookings another_renter (stay Feb_1 Mar_1))
  = (st_january, res_booking_conflict).
Proof.
  split; [reflexivity|]. split; [reflexivity|]. split.
  - unfold overlap_half_open. vm_compute. intros [_ H]. discriminate.
  - reflexivity.
Qed.

(** C8: when every booking on the requested property is pending, rejected,
    completed or cancelled (in particular when there is none), the query
    finds nothing and creation does not answer "already booked", whatever
    the dates; and a booking the query does find is on that property and is
    approved or active. *)
Theorem only_approved_or_active_block (st : Store) (user : User) (r : CreateRequest) :
  (∀ id b, bookings st !! id = Some b → property b = propertyId r →
           status b ∈ [pending; rejected; completed; cancelled]) →
  conflictingBooking st (propertyId r) (req_startDate r) (req_endDate r) = None
  ∧ (post_bookings st user r).2 ≠ res_booking_conflict
  ∧ (∀ st0 pid s e b0, conflictingBooking st0 pid s e = Some b0 →
                       property b0 = pid ∧ participates b0).
Proof.
  intros Hnone.
  assert (Hfound : ∀ st0 pid s e b0, conflictingBooking st0 pid s e = Some b0 →
                                     property b0 = pid ∧ participates b0).
  { intros st0 pid s e b0 Hb0. apply findOne_Some in Hb0 as [Hf _].
    apply conflict_filter_true in Hf. tauto. }
  assert (Hq : conflictingBooking st (propertyId r) (req_startDate r) (req_endDate r)
               = None).
  { destruct (conflictingBooking _ _ _ _) as [b|] eqn:E; [|done].
    assert (is_Some (conflictingBooking st (propertyId r) (req_startDate r)
                       (req_endDate r))) as Hs by (by eexists).
    apply conflictingBooking_Some_iff in Hs as (id & b' & Hid & Hpid & Hpart & _).
    specialize (Hnone id b' Hid Hpid). unfold participates in Hpart.
    rewrite !elem_of_cons, elem_of_nil in Hnone.
    destruct Hpart as [Hs|Hs]; rewrite Hs in Hnone; intuition discriminate. }
  split; [exact Hq|]. split; [|exact Hfound].
  unfold post_bookings. rewrite Hq.
  repeat case_match; simpl; discriminate.
Qed.

Lemma only_approved_or_active_block_witness :
  conflictingBooking st_requested 1 Feb_1 Mar_1 = None
  ∧ (post_bookings st_requested another_renter (stay Feb_1 Mar_1)).2
    ≠ res_booking_conflict
  ∧ (∀ st0 pid s e b0, conflictingBooking st0 pid s e = Some b0 →
                       property b0 = pid ∧ participates b0).
Proof.
  apply (only_approved_or_active_block st_requested another_renter (stay Feb_1 Mar_1)).
  intros id b Hb _.
  apply elem_of_map_to_list in Hb.
  change (map_to_list (bookings st_requested))
    with [(1%positive,
           mkBooking 1 20 10 Jan_1 Mar_1 1000 500 (Some 2500) pending pay_pending "" [] [])]
    in Hb.
  apply list_elem_of_singleton in Hb. injection Hb as _ ->. simpl. left.
Defined.

(** ** The status update *)

Lemma st_requested_reachable : reachable st_requested.
Proof. apply seeded_reachable, st_requested_seeded. Qed.

Lemma save_status (st : Store) (id : positive) (b : Booking) (s : BookingStatus) :
  validate b = true →
  save st id (mkDoc (set_status b s) [path_status])
  = Some (mkStore (properties st) (<[id := set_status b s]> (bookings st))).
Proof.
  intros Hv. unfold save. rewrite pre_save_status. simpl.
  change (validate (set_status b s)) with (validate b). by rewrite Hv.
Qed.

(** C2, as the code has it: there is no transition table.  On a booking of
    theirs the owner's request stores whatever status of the enum it names,
    whatever the current status, and answers 200; a string outside the enum
    is answered 500 and nothing is written. *)
Theorem status_update_accepts_every_status (st : Store) (user : User) (id : positive)
    (requested : string) (b : Booking) :
  reachable st →
  u_role user = owner_role →
  bookings st !! id = Some b →
  owner b = u_id user →
  match castStatus requested with
  | Some s =>
      ∃ st', handle st (PUT_booking_status user id requested)
             = (st', res_status_updated requested)
             ∧ bookings st' !! id = Some (set_status b s)
  | None =>
      handle st (PUT_booking_status user id requested) = (st, res_status_error)
  end.
Proof.
  intros Hreach Hrole Hb Hown.
  destruct (reachable_ok st Hreach) as [Hok _].
  destruct (Hok id b Hb) as (Hv & _).
  simpl. unfold put_booking_status. rewrite Hrole, Hb.
  rewrite bool_decide_eq_true_2 by done. simpl.
  destruct (castStatus requested) as [s|]; [|done].
  destruct (String.eqb requested "approved"); rewrite save_status by done;
    (eexists; split; [reflexivity|]); simpl; apply lookup_insert_eq.
Qed.

Lemma status_update_accepts_every_status_witness :
  ∃ st', handle st_requested (PUT_booking_status the_owner 1 "completed")
         = (st', res_status_updated "completed")
         ∧ bookings st' !! 1%positive
           = Some (mkBooking 1 20 10 Jan_1 Mar_1 1000 500 (Some 2500) completed
                     pay_pending "" [] []).
Proof.
  exact (status_update_accepts_every_status st_requested the_owner 1 "completed"
           (mkBooking 1 20 10 Jan_1 Mar_1 1000 500 (Some 2500) pending
              pay_pending "" [] [])
           st_requested_reachable eq_refl eq_refl eq_refl).
Defined.

(** C2, the claim's own example fails: the booking is pending, the table has
    no transition from pending to completed, and the owner's request for
    completed is answered 200 and stored. *)
Lemma pending_to_completed_is_accepted :
  status <$> bookings st_requested !! 1%positive = Some pending ∧
  legal_transition pending completed = false ∧
  (handle st_requested (PUT_booking_status the_owner 1 "completed")).2
  = mkResponse 200 true "Booking completed successfully" ∧
  status <$> bookings (handle st_requested
                         (PUT_booking_status the_owner 1 "completed")).1 !! 1%positive
  = Some completed.
Proof. repeat split; reflexivity. Qed.

(** C4, as the code has it: a status update that succeeds writes the
    property only when the requested status is approved, and then it sets
    [isAvailable] to false; for every other status, cancelled and rejected
    included, the properties are left as they were. *)
Theorem availability_follows_approval_only (st st' : Store) (user : User)
    (id : positive) (requested : string) (b : Booking) :
  bookings st !! id = Some b →
  handle st (PUT_booking_status user id requested) = (st', res_status_updated requested) →
  (requested = "approved" →
   status <$> bookings st' !! id = Some approved ∧
   ∀ p, properties st !! property b = Some p →
        properties st' !! property b = Some (set_isAvailable false p)) ∧
  (requested ≠ "approved" → properties st' = properties st).
Proof.
  intros Hb. simpl. unfold put_booking_status. rewrite Hb.
  destruct (u_role user); [|discriminate].
  destruct (negb _); [discriminate|].
  destruct (castStatus requested) as [s|] eqn:Hs; [|discriminate].
  destruct (String.eqb requested "approved") eqn:Heq.
  - apply String.eqb_eq in Heq. subst requested.
    destruct (save _ _ _) as [st2|] eqn:Hsave; [|discriminate].
    intros [= <-]. apply save_Some in Hsave as [_ ->]. simpl.
    split; [|done]. intros _. injection Hs as <-. split.
    + by rewrite lookup_insert_eq.
    + intros p Hp. rewrite lookup_alter, decide_True by done. by rewrite Hp.
  - apply String.eqb_neq in Heq.
    destruct (save _ _ _) as [st2|] eqn:Hsave; [|discriminate].
    intros [= <-]. apply save_Some in Hsave as [_ ->]. simpl.
    split; [done|]. done.
Qed.

Lemma availability_follows_approval_only_witness :
  (("approved" : string) = "approved" →
   status <$> bookings st_approved !! 1%positive = Some approved ∧
   ∀ p, properties st_requested !! 1%positive = Some p →
        properties st_approved !! 1%positive = Some (set_isAvailable false p)) ∧
  (("approved" : string) ≠ "approved" → properties st_approved = properties st_requested).
Proof.
  exact (availability_follows_approval_only st_requested st_approved the_owner 1
           "approved"
           (mkBooking 1 20 10 Jan_1 Mar_1 1000 500 (Some 2500) pending
              pay_pending "" [] [])
           eq_refl eq_refl).
Defined.

(** C4, the second half fails: the booking is approved and the property
    unavailable; the owner's request for cancelled is answered 200 and
    stored, and the property is still unavailable. *)
Lemma cancelling_leaves_property_unavailable :
  status <$> bookings st_approved !! 1%positive = Some approved ∧
  isAvailable <$> properties st_approved !! 1%positive = Some false ∧
  (handle st_approved (PUT_booking_status the_owner 1 "cancelled")).2
  = mkResponse 200 true "Booking cancelled successfully" ∧
  status <$> bookings (handle st_approved
                         (PUT_booking_status the_owner 1 "cancelled")).1 !! 1%positive
  = Some cancelled ∧
  isAvailable <$> properties (handle st_approved
                                (PUT_booking_status the_owner 1 "cancelled")).1
                  !! 1%positive
  = Some false.
Proof. repeat split; reflexivity. Qed.

(** ** Pricing *)

Lemma months_of_positive_span (s e : Z) : s < e → 1 <= months_spec s e.
Proof.
  intros Hlt. rewrite months_spec_eq.
  assert ((s - e) / MS_PER_MONTH < 0); [|lia].
  apply Z.div_lt_upper_bound; [reflexivity|lia].
Qed.

Lemma months_of_reversed_span (s e : Z) : e <= s → months_spec s e <= 0.
Proof.
  intros Hle. rewrite months_spec_eq.
  assert (0 <= (s - e) / MS_PER_MONTH); [|lia].
  apply Z.div_pos; [lia|reflexivity].
Qed.

Lemma months_of_30_days (s e : Z) : e - s = 30 * MS_PER_DAY → months_spec s e = 1.
Proof.
  intros H. rewrite months_spec_eq.
  replace (s - e) with (- (30 * MS_PER_DAY)) by lia. reflexivity.
Qed.

Lemma months_of_31_days (s e : Z) : e - s = 31 * MS_PER_DAY → months_spec s e = 2.
Proof.
  intros H. rewrite months_spec_eq.
  replace (s - e) with (- (31 * MS_PER_DAY)) by lia. reflexivity.
Qed.

Lemma durationInMonths_spec (b : Booking) :
  durationInMonths b = months_spec (startDate b) (endDate b).
Proof. by rewrite durationInMonths_eq, months_spec_eq. Qed.

Lemma pre_save_recomputes (d : Doc) (path : Path) :
  path ∈ [path_monthlyRent; path_securityDeposit; path_startDate; path_endDate] →
  path ∈ modified d →
  priced (fields (pre_save d)).
Proof.
  intros Hpath Hmod. unfold pre_save, isModified.
  rewrite !elem_of_cons, elem_of_nil in Hpath.
  assert (bool_decide (path_monthlyRent ∈ modified d)
          || bool_decide (path_securityDeposit ∈ modified d)
          || bool_decide (path_startDate ∈ modified d)
          || bool_decide (path_endDate ∈ modified d) = true) as ->.
  { rewrite !orb_true_iff, !bool_decide_eq_true. intuition (subst; auto). }
  reflexivity.
Qed.

(** ** A booking over a sequence of requests *)

Lemma booking_step_history (b b' : Booking) :
  booking_step b b' → ∃ l, paymentHistory b' = paymentHistory b ++ l.
Proof.
  destruct 1; simpl;
    [exists []; by rewrite app_nil_r | exists []; by rewrite app_nil_r
    |eexists; reflexivity | exists []; by rewrite app_nil_r].
Qed.

Lemma run_stored (st : Store) (rqs : list Request) (id : positive) (b : Booking) :
  bookings st !! id = Some b →
  ∃ b', bookings (run st rqs) !! id = Some b' ∧ terms b' = terms b
        ∧ ∃ l, paymentHistory b' = paymentHistory b ++ l.
Proof.
  revert st b. induction rqs as [|rq rqs IH]; intros st b Hb.
  - exists b. split; [done|]. split; [done|]. exists []. by rewrite app_nil_r.
  - destruct (handle_stored st rq id b Hb) as (b1 & Hb1 & Hstep).
    destruct (IH _ _ Hb1) as (b' & Hb' & Ht & l' & Hl').
    destruct (booking_step_history _ _ Hstep) as [l Hl].
    exists b'. split; [exact Hb'|].
    split; [by rewrite Ht; apply booking_step_terms|].
    exists (l ++ l'). by rewrite Hl', Hl, app_assoc.
Qed.

(** C3: when [save] stores a booking whose rent, deposit or dates were
    modified, the stored total is the months formula,
    [monthlyRent * ceil(days / 30) + securityDeposit], computed from the
    document's own paths before the write (for rents, deposits and dates
    whose products and sums are safe integers); with [end > start] at least
    one month is counted, a span of exactly 30 days counts 1 month and one
    of 31 days counts 2; and whatever requests follow, the stored booking
    keeps that total with the rent, deposit and dates it was computed from. *)
Theorem save_recomputes_the_total (st st' : Store) (id : positive) (d : Doc)
    (path : Path) :
  path ∈ [path_monthlyRent; path_securityDeposit; path_startDate; path_endDate] →
  path ∈ modified d →
  exact_pricing (fields d) →
  save st id d = Some st' →
  ∃ b,
    bookings st' !! id = Some b ∧
    (monthlyRent b, securityDeposit b, startDate b, endDate b)
    = (monthlyRent (fields d), securityDeposit (fields d),
       startDate (fields d), endDate (fields d)) ∧
    durationInMonths b = months_spec (startDate b) (endDate b) ∧
    totalAmount b
    = Some (computeTotal_spec (monthlyRent b) (securityDeposit b)
              (startDate b) (endDate b)) ∧
    (startDate b < endDate b → 1 <= months_spec (startDate b) (endDate b)) ∧
    (endDate b - startDate b = 30 * MS_PER_DAY →
     months_spec (startDate b) (endDate b) = 1) ∧
    (endDate b - startDate b = 31 * MS_PER_DAY →
     months_spec (startDate b) (endDate b) = 2) ∧
    (∀ rqs, ∃ b', bookings (run st' rqs) !! id = Some b' ∧ terms b' = terms b).
Proof.
  intros Hpath Hmod _ Hsave. apply save_Some in Hsave as [_ ->]. simpl.
  pose proof (pre_save_recomputes d path Hpath Hmod) as Hpr.
  exists (fields (pre_save d)). split; [apply lookup_insert_eq|].
  assert (Hsame : fields (pre_save d)
                  = set_totalAmount (fields d) (totalAmount (fields (pre_save d)))).
  { unfold pre_save. case_match; [done|]. by destruct d as [[] ?]. }
  split; [by rewrite Hsame|].
  split; [apply durationInMonths_spec|].
  split; [unfold computeTotal_spec; by rewrite <- durationInMonths_spec|].
  split; [apply months_of_positive_span|].
  split; [apply months_of_30_days|].
  split; [apply months_of_31_days|].
  intros rqs.
  destruct (run_stored
              (mkStore (properties st) (<[id := fields (pre_save d)]> (bookings st)))
              rqs id (fields (pre_save d))) as (b' & Hb' & Ht & _);
    [apply lookup_insert_eq|]. by exists b'.
Qed.

Lemma save_recomputes_the_total_witness :
  ∃ b,
    bookings (with_booking st_requested 1
                (mkBooking 1 20 10 Jan_1 (day 61) 1000 500 (Some 3500) pending
                   pay_pending "" [] []))
    !! 1%positive = Some b ∧
    (monthlyRent b, securityDeposit b, startDate b, endDate b)
    = (1000, 500, Jan_1, day 61) ∧
    durationInMonths b = months_spec (startDate b) (endDate b) ∧
    totalAmount b
    = Some (computeTotal_spec (monthlyRent b) (securityDeposit b)
              (startDate b) (endDate b)) ∧
    (startDate b < endDate b → 1 <= months_spec (startDate b) (endDate b)) ∧
    (endDate b - startDate b = 30 * MS_PER_DAY →
     months_spec (startDate b) (endDate b) = 1) ∧
    (endDate b - startDate b = 31 * MS_PER_DAY →
     months_spec (startDate b) (endDate b) = 2) ∧
    (∀ rqs, ∃ b',
       bookings (run (with_booking st_requested 1
                        (mkBooking 1 20 10 Jan_1 (day 61) 1000 500 (Some 3500) pending
                           pay_pending "" [] []))
                   rqs) !! 1%positive = Some b'
       ∧ terms b' = terms b).
Proof.
  apply (save_recomputes_the_total st_requested _ 1 extended_stay path_endDate).
  - vm_compute. do 3 right. left.
  - vm_compute. left.
  - repeat split; vm_compute; discriminate.
  - reflexivity.
Defined.

(** ** Creation *)

(** C9, as the code has it: creation has no check of the order of the
    dates.  With the property found and available, a request with
    [start >= end] is answered "already booked" exactly when an approved or
    active booking on the property meets the dates as given in closed
    overlap; when it is not, the document is built with the dates as given
    and handed to [save], whose outcome is the answer. *)
Theorem create_has_no_date_check (st : Store) (user : User) (r : CreateRequest)
    (p : Property) :
  u_role user = renter_role →
  properties st !! propertyId r = Some p →
  isAvailable p = true →
  req_startDate r >= req_endDate r →
  let d := new_Booking (propertyId r) (u_id user) p r in
  ((post_bookings st user r).2 = res_booking_conflict ↔
   ∃ id b, bookings st !! id = Some b ∧ property b = propertyId r ∧ participates b
           ∧ overlap_closed (startDate b) (endDate b) (req_startDate r) (req_endDate r)) ∧
  ((post_bookings st user r).2 = res_booking_conflict →
   post_bookings st user r = (st, res_booking_conflict)) ∧
  ((post_bookings st user r).2 ≠ res_booking_conflict →
   startDate (fields d) = req_startDate r ∧ endDate (fields d) = req_endDate r ∧
   post_bookings st user r
   = match save st (new_ObjectId (bookings st)) d with
     | Some st' => (st', res_booking_created)
     | None => (st, res_create_error)
     end).
Proof.
  intros Hrole Hp Hav _ d. split; [|split].
  - rewrite (post_bookings_conflict_iff st user r p Hrole Hp Hav).
    apply conflictingBooking_Some_iff.
  - unfold post_bookings. rewrite Hrole, Hp, Hav. simpl.
    destruct (conflictingBooking _ _ _ _); [done|].
    destruct (save _ _ _); simpl; discriminate.
  - unfold post_bookings. rewrite Hrole, Hp, Hav. simpl.
    destruct (conflictingBooking _ _ _ _); [done|]. done.
Qed.

Lemma create_has_no_date_check_witness :
  (post_bookings st_january another_renter (stay Feb_1 Jan_1)).2 = res_booking_conflict.
Proof.
  apply (create_has_no_date_check st_january another_renter (stay Feb_1 Jan_1)
           (mkProperty 10 1000 500 true));
    [reflexivity|reflexivity|reflexivity|vm_compute; discriminate|].
  exists 1%positive, january_booking.
  split; [reflexivity|]. split; [reflexivity|].
  split; [left; reflexivity|]. split; vm_compute; discriminate.
Defined.

(** C9, the claim fails: a request from 1 February back to 1 January, on a
    property with an approved booking for January, is not refused for its
    dates; it goes to the conflict query and is answered 400 "already
    booked". *)
Lemma reversed_dates_meet_the_conflict_check :
  Feb_1 >= Jan_1 ∧
  map_to_list (bookings st_january) = [(1%positive, january_booking)] ∧
  handle st_january (POST_bookings another_renter (stay Feb_1 Jan_1))
  = (st_january,
     mkResponse 400 false "Property is already booked for the selected dates").
Proof.
  split; [vm_compute; discriminate|]. split; reflexivity.
Qed.

(** C10, where the code fails: the creation route builds the booking with
    the rent and the deposit of the property and without a total, and
    leaves the total to the pre-save hook; the hook would set it and the
    document would then pass the validators, but the validators come first
    and refuse it for the missing total: the request is answered 500 and
    nothing is stored. *)
Theorem creation_is_refused_by_the_validators (st : Store) (user : User)
    (r : CreateRequest) (p : Property) :
  u_role user = renter_role →
  properties st !! propertyId r = Some p →
  isAvailable p = true →
  validate_property p = true →
  conflictingBooking st (propertyId r) (req_startDate r) (req_endDate r) = None →
  let d := new_Booking (propertyId r) (u_id user) p r in
  monthlyRent (fields d) = rentPrice p ∧
  securityDeposit (fields d) = p_securityDeposit p ∧
  totalAmount (fields d) = None ∧
  totalAmount (fields (pre_save d))
  = Some (rentPrice p * durationInMonths (fields d) + p_securityDeposit p) ∧
  validate (fields (pre_save d)) = true ∧
  handle st (POST_bookings user r) = (st, res_create_error).
Proof.
  intros Hrole Hp Hav Hv Hq d.
  split; [done|]. split; [done|]. split; [done|]. split; [done|]. split.
  - unfold validate_property in Hv. apply andb_true_iff in Hv as [Hr Hd].
    unfold validate. simpl. by rewrite Hr, Hd.
  - simpl. unfold post_bookings. rewrite Hrole, Hp, Hav, Hq. simpl.
    by rewrite save_new_Booking.
Qed.

Lemma st_listed_reachable : reachable st_listed.
Proof. apply reachable_run, reachable_empty. Qed.

Lemma creation_is_refused_by_the_validators_witness :
  handle st_listed (POST_bookings a_renter (stay Jan_1 Mar_1))
  = (st_listed, mkResponse 500 false "Server error creating booking").
Proof.
  apply (creation_is_refused_by_the_validators st_listed a_renter (stay Jan_1 Mar_1)
           (mkProperty 10 1000 500 true));
    reflexivity.
Defined.

(** ** The payment ledger *)

Lemma save_payment (st : Store) (id : positive) (b : Booking) :
  validate b = true →
  save st id (mkDoc b [path_paymentHistory; path_paymentStatus])
  = Some (mkStore (properties st) (<[id := b]> (bookings st))).
Proof. intros Hv. unfold save. rewrite pre_save_payment. simpl. by rewrite Hv. Qed.

Lemma post_booking_payment_added (st st' : Store) (user : User) (id : positive)
    (r : PaymentRequest) (b : Booking) :
  bookings st !! id = Some b →
  handle st (POST_booking_payment user id r) = (st', res_payment_added) →
  ∃ p, castPayment r = Some p ∧ bookings st' !! id = Some (addPayment_fields b p).
Proof.
  intros Hb. simpl. unfold post_booking_payment. rewrite Hb.
  destruct (negb _); [discriminate|].
  destruct (castPayment r) as [p|]; [|discriminate].
  destruct (addPayment _ _ _ _) as [st2|] eqn:Hadd; [|discriminate].
  intros [= <-]. unfold addPayment in Hadd. apply save_Some in Hadd as [_ ->].
  exists p. split; [done|]. apply lookup_insert_eq.
Qed.

Lemma totalPaid_nonneg (h : list Payment) :
  Forall (λ p, 0 <= amount p) h → 0 <= totalPaid h.
Proof.
  induction h as [|p h IH] using rev_ind; [done|].
  intros Hall. apply Forall_app in Hall as [Hall Hp]. apply Forall_inv in Hp.
  rewrite totalPaid_snoc. specialize (IH Hall). lia.
Qed.

(** C5, as the code has it: after a payment is added, the stored payment
    status is paid when the sum of the history reaches the total, partial
    when the sum is positive and below the total, and otherwise (a sum of
    zero or less, below the total) what it was before the payment; while
    the history holds no negative amount, that is the status the spec
    derives from the sum and the total.  The amounts are integers whose
    absolute values add up to a safe integer, so that the sum the code
    computes is the sum. *)
Theorem paymentStatus_after_payment (st st' : Store) (user : User) (id : positive)
    (r : PaymentRequest) (b : Booking) :
  reachable st →
  bookings st !! id = Some b →
  sum_abs (paymentHistory b) + Z.abs (req_amount r) <= MAX_SAFE_INTEGER →
  handle st (POST_booking_payment user id r) = (st', res_payment_added) →
  ∃ b' total,
    bookings st' !! id = Some b' ∧
    totalAmount b' = Some total ∧
    let cumulative := totalPaid (paymentHistory b') in
    (cumulative >= total → paymentStatus b' = paid) ∧
    (0 < cumulative < total → paymentStatus b' = partial) ∧
    (cumulative <= 0 → cumulative < total → paymentStatus b' = paymentStatus b) ∧
    (Forall (λ p, 0 <= amount p) (paymentHistory b') →
     paymentStatus_spec cumulative total = Some (paymentStatus b')).
Proof.
  intros Hreach Hb _ Hh.
  destruct (reachable_ok st Hreach) as [Hok _].
  destruct (Hok id b Hb) as (Hv & _ & Hl).
  destruct (post_booking_payment_added _ _ _ _ _ _ Hb Hh) as (p & _ & Hb').
  unfold validate in Hv. apply andb_true_iff in Hv as [_ Ht].
  apply bool_decide_eq_true in Ht as [total Ht].
  exists (addPayment_fields b p), total. split; [exact Hb'|].
  split; [exact Ht|]. simpl. rewrite Ht. simpl.
  split; [|split; [|split]].
  1-3: intros; repeat case_bool_decide; try reflexivity; lia.
  intros Hall. apply Forall_app in Hall as [Hall Hp]. apply Forall_inv in Hp.
  specialize (Hl Hall). pose proof (totalPaid_nonneg _ Hall) as Hsum.
  rewrite Ht in Hl. rewrite totalPaid_snoc in *.
  unfold paymentStatus_spec. repeat case_bool_decide; try reflexivity; try lia.
  destruct (paymentStatus b); simpl in Hl; try done; try lia.
  apply bool_decide_eq_true in Hl. lia.
Qed.

(** C6, as the code has it: the amount is not validated.  For the renter or
    the owner of the booking, every entry whose method passes the enum is
    appended, whatever the sign of its amount, and the answer is 200; and a
    request that is not answered "Payment added" writes nothing. *)
Theorem addPayment_accepts_every_amount (st : Store) (user : User) (id : positive)
    (r : PaymentRequest) (b : Booking) (p : Payment) :
  reachable st →
  bookings st !! id = Some b →
  renter b = u_id user ∨ owner b = u_id user →
  castPayment r = Some p →
  amount p = req_amount r ∧
  (∃ st' b',
     handle st (POST_booking_payment user id r) = (st', res_payment_added) ∧
     bookings st' !! id = Some b' ∧
     paymentHistory b' = paymentHistory b ++ [p]) ∧
  (∀ user' id' r',
     (handle st (POST_booking_payment user' id' r')).2 ≠ res_payment_added →
     (handle st (POST_booking_payment user' id' r')).1 = st).
Proof.
  intros Hreach Hb Hauth Hp.
  destruct (reachable_ok st Hreach) as [Hok _].
  destruct (Hok id b Hb) as (Hv & _).
  split; [|split].
  - unfold castPayment in Hp. repeat case_match; simplify_eq; reflexivity.
  - simpl. unfold post_booking_payment. rewrite Hb, Hp.
    assert (bool_decide (renter b = u_id user) || bool_decide (owner b = u_id user)
            = true) as ->.
    { rewrite orb_true_iff, !bool_decide_eq_true. exact Hauth. }
    simpl. unfold addPayment. rewrite save_payment by exact Hv.
    do 2 eexists. split; [reflexivity|]. simpl.
    split; [apply lookup_insert_eq|reflexivity].
  - intros user' id' r'. simpl. unfold post_booking_payment.
    repeat case_match; simpl; try done.
Qed.

Lemma addPayment_accepts_every_amount_witness :
  amount (mkPayment (-100) (Some cash) "" "") = -100 ∧
  (∃ st' b',
     handle st_requested (POST_booking_payment a_renter 1 (pays (-100)))
     = (st', res_payment_added) ∧
     bookings st' !! 1%positive = Some b' ∧
     paymentHistory b' = [] ++ [mkPayment (-100) (Some cash) "" ""]) ∧
  (∀ user' id' r',
     (handle st_requested (POST_booking_payment user' id' r')).2 ≠ res_payment_added →
     (handle st_requested (POST_booking_payment user' id' r')).1 = st_requested).
Proof.
  exact (addPayment_accepts_every_amount st_requested a_renter 1 (pays (-100))
           (mkBooking 1 20 10 Jan_1 Mar_1 1000 500 (Some 2500) pending
              pay_pending "" [] [])
           (mkPayment (-100) (Some cash) "" "")
           st_requested_reachable eq_refl (or_introl eq_refl) eq_refl).
Defined.

(** C6, the claim fails: a payment of -100, and one of 0, are answered 200
    and appended to the history. *)
Lemma nonpositive_payment_is_appended :
  (handle st_requested (POST_booking_payment a_renter 1 (pays (-100)))).2
  = mkResponse 200 true "Payment added successfully" ∧
  paymentHistory <$>
    bookings (handle st_requested (POST_booking_payment a_renter 1 (pays (-100)))).1
    !! 1%positive
  = Some [mkPayment (-100) (Some cash) "" ""] ∧
  (handle st_requested (POST_booking_payment a_renter 1 (pays 0))).2
  = mkResponse 200 true "Payment added successfully" ∧
  paymentHistory <$>
    bookings (handle st_requested (POST_booking_payment a_renter 1 (pays 0))).1
    !! 1%positive
  = Some [mkPayment 0 (Some cash) "" ""].
Proof. repeat split; reflexivity. Qed.

Lemma paymentStatus_after_payment_witness :
  ∃ b' total,
    bookings (run st_paid_100 [POST_booking_payment a_renter 1 (pays 1400)]) !! 1%positive
    = Some b' ∧
    totalAmount b' = Some total ∧
    let cumulative := totalPaid (paymentHistory b') in
    (cumulative >= total → paymentStatus b' = paid) ∧
    (0 < cumulative < total → paymentStatus b' = partial) ∧
    (cumulative <= 0 → cumulative < total → paymentStatus b' = partial) ∧
    (Forall (λ p, 0 <= amount p) (paymentHistory b') →
     paymentStatus_spec cumulative total = Some (paymentStatus b')).
Proof.
  exact (paymentStatus_after_payment st_paid_100
           (run st_paid_100 [POST_booking_payment a_renter 1 (pays 1400)])
           a_renter 1 (pays 1400)
           (mkBooking 1 20 10 Jan_1 Mar_1 1000 500 (Some 2500) pending partial ""
              [mkPayment 100 (Some cash) "" ""] [])
           (reachable_run _ _ st_requested_reachable) eq_refl
           ltac:(vm_compute; discriminate) eq_refl).
Defined.

(** C5, the claim fails: after payments of 100 and -100 the history sums to
    0 against a total of 2500, the spec's rule gives pending, and the stored
    status is partial; a single payment of 0 on the same booking has the
    same sum and total and leaves the status pending, so the status is not
    a function of the two. *)
Lemma zero_cumulative_keeps_partial :
  (handle st_paid_100 (POST_booking_payment a_renter 1 (pays (-100)))).2
  = mkResponse 200 true "Payment added successfully" ∧
  bookings (handle st_paid_100 (POST_booking_payment a_renter 1 (pays (-100)))).1
  !! 1%positive
  = Some (mkBooking 1 20 10 Jan_1 Mar_1 1000 500 (Some 2500) pending partial ""
            [mkPayment 100 (Some cash) "" ""; mkPayment (-100) (Some cash) "" ""] []) ∧
  totalPaid [mkPayment 100 (Some cash) "" ""; mkPayment (-100) (Some cash) "" ""] = 0 ∧
  paymentStatus_spec 0 2500 = Some pay_pending ∧
  bookings (handle st_requested (POST_booking_payment a_renter 1 (pays 0))).1
  !! 1%positive
  = Some (mkBooking 1 20 10 Jan_1 Mar_1 1000 500 (Some 2500) pending pay_pending ""
            [mkPayment 0 (Some cash) "" ""] []) ∧
  totalPaid [mkPayment 0 (Some cash) "" ""] = 0.
Proof. repeat split; reflexivity. Qed.

Lemma ps_le_refl (ps : PaymentStatus) : ps ≠ overdue → ps_le ps ps.
Proof. destruct ps; unfold ps_le; simpl; [lia|lia|lia|done]. Qed.

Lemma ps_le_trans (a b c : PaymentStatus) : ps_le a b → ps_le b c → ps_le a c.
Proof. destruct a, b, c; unfold ps_le; simpl; try done; lia. Qed.

Lemma booking_step_monotone (b b' : Booking) :
  ledger_ok b →
  booking_step b b' →
  Forall (λ p, 0 <= amount p) (paymentHistory b') →
  ps_le (paymentStatus b) (paymentStatus b').
Proof.
  intros [Hno Hb] Hstep Hall.
  destruct Hstep as [|s|p|m]; simpl in *; try by apply ps_le_refl.
  apply Forall_app in Hall as [Hall Hp]. apply Forall_inv in Hp.
  specialize (Hb Hall). rewrite totalPaid_snoc.
  destruct (covers (_ + _) _) eqn:Hc.
  { destruct (paymentStatus b); unfold ps_le; simpl; try done; lia. }
  case_bool_decide as Hpos; [|by apply ps_le_refl].
  destruct (paymentStatus b); unfold ps_le; simpl; try done; try lia.
  apply (covers_mono _ (totalPaid (paymentHistory b) + amount p)) in Hb; [|lia].
  congruence.
Qed.

Lemma run_monotone (st : Store) (rqs : list Request) (id : positive) (b b' : Booking) :
  store_ok st →
  bookings st !! id = Some b →
  bookings (run st rqs) !! id = Some b' →
  Forall (λ p, 0 <= amount p) (paymentHistory b') →
  ps_le (paymentStatus b) (paymentStatus b').
Proof.
  revert st b. induction rqs as [|rq rqs IH]; intros st b Hok Hb Hb' Hall.
  - simpl in Hb'. rewrite Hb in Hb'. injection Hb' as <-. apply ps_le_refl.
    destruct Hok as [Hok _]. by destruct (Hok id b Hb) as (_ & [? _]).
  - destruct (handle_stored st rq id b Hb) as (b1 & Hb1 & Hstep).
    simpl in Hb'.
    destruct (run_stored _ rqs id b1 Hb1) as (b2 & Hb2 & _ & l & Hl).
    change (run (handle st rq).1 rqs) with (run st (rq :: rqs)) in Hb2.
    simpl in Hb2. rewrite Hb' in Hb2. simplify_eq.
    apply ps_le_trans with (paymentStatus b1).
    + apply booking_step_monotone; [|exact Hstep|].
      * destruct Hok as [Hok _]. by destruct (Hok id b Hb) as (_ & ?).
      * rewrite Hl in Hall. by apply Forall_app in Hall as [? _].
    + apply (IH (handle st rq).1); [by apply handle_ok|exact Hb1|exact Hb'|exact Hall].
Qed.

(** C7, as the code has it: over every sequence of requests, the payment
    status of a booking whose history holds no negative amount does not go
    back in the order pending, partial, paid. *)
Theorem paymentStatus_monotone_without_negative_amounts (st : Store)
    (rqs : list Request) (id : positive) (b b' : Booking) :
  reachable st →
  bookings st !! id = Some b →
  bookings (run st rqs) !! id = Some b' →
  Forall (λ p, 0 <= amount p) (paymentHistory b') →
  ps_le (paymentStatus b) (paymentStatus b').
Proof. intros Hreach. apply run_monotone, reachable_ok, Hreach. Qed.

Lemma paymentStatus_monotone_without_negative_amounts_witness :
  ps_le pay_pending paid.
Proof.
  apply (paymentStatus_monotone_without_negative_amounts st_requested
           [POST_booking_payment a_renter 1 (pays 1500);
            PUT_booking_status the_owner 1 "approved";
            POST_booking_payment a_renter 1 (pays 1000)]
           1
           (mkBooking 1 20 10 Jan_1 Mar_1 1000 500 (Some 2500) pending
              pay_pending "" [] [])
           (mkBooking 1 20 10 Jan_1 Mar_1 1000 500 (Some 2500) approved paid ""
              [mkPayment 1500 (Some cash) "" ""; mkPayment 1000 (Some cash) "" ""] [])
           st_requested_reachable eq_refl eq_refl).
  repeat constructor; simpl; lia.
Defined.

(** C7, the claim fails: the booking is paid in full, a further entry of
    -1000 is answered 200, and the stored status goes back from paid to
    partial. *)
Lemma negative_payment_regresses_status :
  paymentStatus <$> bookings st_paid_in_full !! 1%positive = Some paid ∧
  (handle st_paid_in_full (POST_booking_payment a_renter 1 (pays (-1000)))).2
  = mkResponse 200 true "Payment added successfully" ∧
  paymentStatus <$>
    bookings (handle st_paid_in_full (POST_booking_payment a_renter 1 (pays (-1000)))).1
    !! 1%positive
  = Some partial ∧
  ¬ ps_le paid partial.
Proof.
  split; [reflexivity|]. split; [reflexivity|]. split; [reflexivity|].
  unfold ps_le. simpl. lia.
Qed.


(** * Further properties of the routes *)

(** ** Failure writes nothing *)

Lemma stored_booking_valid (st : Store) (id : positive) (b : Booking) :
  reachable st → bookings st !! id = Some b → validate b = true.
Proof.
  intros Hreach Hb. destruct (reachable_ok st Hreach) as [Hok _].
  by destruct (Hok id b Hb) as (? & _).
Qed.

Lemma save_message (st : Store) (id : positive) (b : Booking) :
  validate b = true →
  save st id (mkDoc b [path_communication])
  = Some (mkStore (properties st) (<[id := b]> (bookings st))).
Proof. intros Hv. unfold save. rewrite pre_save_message. simpl. by rewrite Hv. Qed.

(** X1: on the stores the server can reach, a request that is answered with
    [success: false] (whatever the route and the reason: role, missing
    document, other user's document, validation) leaves the whole store as
    it was. *)
Theorem failed_request_writes_nothing (st : Store) (rq : Request) :
  reachable st →
  success (handle st rq).2 = false →
  (handle st rq).1 = st.
Proof.
  intros Hreach.
  destruct rq as [u r|u id s|u id r|u id msg|u body|u pid body|u pid]; simpl.
  - unfold post_bookings. repeat case_match; simpl; done.
  - unfold put_booking_status.
    destruct (u_role u); [|done].
    destruct (bookings st !! id) as [b|] eqn:Hb; [|done].
    destruct (negb _); [done|].
    destruct (castStatus s) as [s'|]; [|done].
    pose proof (stored_booking_valid st id b Hreach Hb) as Hv.
    destruct (String.eqb s "approved"); rewrite save_status by exact Hv; simpl; done.
  - unfold post_booking_payment. repeat case_match; simpl; done.
  - unfold post_booking_message. repeat case_match; simpl; done.
  - unfold post_properties. repeat case_match; simpl; done.
  - unfold put_property. repeat case_match; simpl; done.
  - unfold delete_property. repeat case_match; simpl; done.
Qed.

Lemma failed_request_writes_nothing_witness :
  (handle st_requested (PUT_booking_status a_renter 1 "approved")).1 = st_requested.
Proof.
  apply (failed_request_writes_nothing st_requested
           (PUT_booking_status a_renter 1 "approved") st_requested_reachable).
  reflexivity.
Defined.

(** ** What never changes in a booking *)

(** X2: no sequence of requests removes a stored booking or changes its
    property, its renter, its owner or its dates. *)
Theorem booking_parties_and_dates_are_fixed (st : Store) (rqs : list Request)
    (id : positive) (b : Booking) :
  bookings st !! id = Some b →
  ∃ b', bookings (run st rqs) !! id = Some b' ∧
        property b' = property b ∧ renter b' = renter b ∧ owner b' = owner b ∧
        startDate b' = startDate b ∧ endDate b' = endDate b.
Proof.
  intros Hb. destruct (run_stored st rqs id b Hb) as (b' & Hb' & Ht & _).
  exists b'. split; [exact Hb'|].
  unfold terms in Ht. injection Ht as -> -> -> -> -> _ _ _. done.
Qed.

Lemma booking_parties_and_dates_are_fixed_witness :
  ∃ b', bookings (run st_requested
                    [PUT_booking_status the_owner 1 "approved";
                     POST_booking_payment a_renter 1 (pays 2500);
                     DELETE_property the_owner 1]) !! 1%positive = Some b' ∧
        property b' = 1%positive ∧ renter b' = 20%positive ∧ owner b' = 10%positive ∧
        startDate b' = Jan_1 ∧ endDate b' = Mar_1.
Proof.
  exact (booking_parties_and_dates_are_fixed st_requested
           [PUT_booking_status the_owner 1 "approved";
            POST_booking_payment a_renter 1 (pays 2500);
            DELETE_property the_owner 1]
           1
           (mkBooking 1 20 10 Jan_1 Mar_1 1000 500 (Some 2500) pending
              pay_pending "" [] [])
           eq_refl).
Defined.

Lemma booking_step_logs (b b' : Booking) :
  booking_step b b' →
  (∃ l, paymentHistory b' = paymentHistory b ++ l) ∧
  (∃ c, communication b' = communication b ++ c).
Proof.
  destruct 1; simpl; split;
    first [by exists []; rewrite app_nil_r | by eexists].
Qed.

Lemma run_logs (st : Store) (rqs : list Request) (id : positive) (b : Booking) :
  bookings st !! id = Some b →
  ∃ b', bookings (run st rqs) !! id = Some b' ∧
        (∃ l, paymentHistory b' = paymentHistory b ++ l) ∧
        (∃ c, communication b' = communication b ++ c).
Proof.
  revert st b. induction rqs as [|rq rqs IH]; intros st b Hb.
  - exists b. split; [done|]. split; exists []; by rewrite app_nil_r.
  - destruct (handle_stored st rq id b Hb) as (b1 & Hb1 & Hstep).
    destruct (IH _ _ Hb1) as (b' & Hb' & [l' Hl'] & [c' Hc']).
    destruct (booking_step_logs _ _ Hstep) as [[l Hl] [c Hc]].
    exists b'. split; [exact Hb'|]. split.
    + exists (l ++ l'). by rewrite Hl', Hl, app_assoc.
    + exists (c ++ c'). by rewrite Hc', Hc, app_assoc.
Qed.

(** X3: the payment history and the communication log of a booking are
    append-only: after any sequence of requests, what was recorded before
    is still there, unchanged and in the same order, as the head of what is
    recorded now. *)
Theorem ledger_and_log_are_append_only (st : Store) (rqs : list Request)
    (id : positive) (b : Booking) :
  bookings st !! id = Some b →
  ∃ b' payments messages,
    bookings (run st rqs) !! id = Some b' ∧
    paymentHistory b' = paymentHistory b ++ payments ∧
    communication b' = communication b ++ messages.
Proof.
  intros Hb. destruct (run_logs st rqs id b Hb) as (b' & Hb' & [l Hl] & [c Hc]).
  by exists b', l, c.
Qed.

Lemma ledger_and_log_are_append_only_witness :
  ∃ b' payments messages,
    bookings (run st_paid_100
                [POST_booking_message the_owner 1 "thanks";
                 POST_booking_payment a_renter 1 (pays (-100))]) !! 1%positive
    = Some b' ∧
    paymentHistory b' = [mkPayment 100 (Some cash) "" ""] ++ payments ∧
    communication b' = [] ++ messages.
Proof.
  exact (ledger_and_log_are_append_only st_paid_100
           [POST_booking_message the_owner 1 "thanks";
            POST_booking_payment a_renter 1 (pays (-100))]
           1
           (mkBooking 1 20 10 Jan_1 Mar_1 1000 500 (Some 2500) pending partial ""
              [mkPayment 100 (Some cash) "" ""] [])
           eq_refl).
Defined.

(** X4: no route assigns the payment status ['overdue']: no booking of a
    reachable store has it. *)
Theorem overdue_is_never_assigned (st : Store) (id : positive) (b : Booking) :
  reachable st →
  bookings st !! id = Some b →
  paymentStatus b ≠ overdue.
Proof.
  intros Hreach Hb. destruct (reachable_ok st Hreach) as [Hok _].
  by destruct (Hok id b Hb) as (_ & [? _]).
Qed.

Lemma overdue_is_never_assigned_witness :
  paymentStatus (mkBooking 1 20 10 Jan_1 Mar_1 1000 500 (Some 2500) pending partial ""
                   [mkPayment 100 (Some cash) "" ""] [])
  ≠ overdue.
Proof.
  exact (overdue_is_never_assigned st_paid_100 1
           (mkBooking 1 20 10 Jan_1 Mar_1 1000 500 (Some 2500) pending partial ""
              [mkPayment 100 (Some cash) "" ""] [])
           (reachable_run _ _ st_requested_reachable) eq_refl).
Defined.

(** ** Bounds on the month count and the total *)

(** X5: the month count of the hook and of the [durationInMonths] virtual
    is the least number of 30-day months that covers the span,
    [(months - 1) * 30 days < end - start <= months * 30 days], for every
    pair of dates whose difference is a safe integer, reversed ones
    included; and of two such spans the longer never counts fewer months. *)
Theorem durationInMonths_bounds (b b' : Booking) :
  safe_integer (endDate b - startDate b) →
  safe_integer (endDate b' - startDate b') →
  (durationInMonths b - 1) * MS_PER_MONTH < endDate b - startDate b
  ∧ endDate b - startDate b <= durationInMonths b * MS_PER_MONTH
  ∧ (endDate b - startDate b <= endDate b' - startDate b' →
     durationInMonths b <= durationInMonths b').
Proof.
  intros _ _. rewrite !durationInMonths_eq.
  assert (HM : 0 < MS_PER_MONTH) by reflexivity.
  pose proof (Z.div_mod (startDate b - endDate b) MS_PER_MONTH ltac:(lia)) as Hdm.
  pose proof (Z.mod_pos_bound (startDate b - endDate b) MS_PER_MONTH HM) as Hb.
  split; [nia|]. split; [nia|].
  intros Hle.
  assert ((startDate b' - endDate b') / MS_PER_MONTH
          <= (startDate b - endDate b) / MS_PER_MONTH); [|lia].
  apply Z.div_le_mono; lia.
Qed.

Lemma durationInMonths_bounds_witness :
  (durationInMonths january_booking - 1) * MS_PER_MONTH
  < endDate january_booking - startDate january_booking
  ∧ endDate january_booking - startDate january_booking
    <= durationInMonths january_booking * MS_PER_MONTH
  ∧ (endDate january_booking - startDate january_booking
     <= endDate the_request - startDate the_request →
     durationInMonths january_booking <= durationInMonths the_request).
Proof.
  apply (durationInMonths_bounds january_booking the_request);
    vm_compute; discriminate.
Defined.

(** X6: when [save] stores a booking whose rent, deposit or dates were
    modified, its rent and deposit are not negative and the total the hook
    computed is at least one rent plus the deposit when the booking ends
    after it starts, and at most the deposit when it does not (for numbers
    that are safe integers). *)
Theorem recomputed_total_is_bounded (st st' : Store) (id : positive) (d : Doc)
    (path : Path) :
  path ∈ [path_monthlyRent; path_securityDeposit; path_startDate; path_endDate] →
  path ∈ modified d →
  exact_pricing (fields d) →
  save st id d = Some st' →
  ∃ b total,
    bookings st' !! id = Some b ∧ totalAmount b = Some total ∧
    0 <= monthlyRent b ∧ 0 <= securityDeposit b ∧
    (startDate b < endDate b → monthlyRent b + securityDeposit b <= total) ∧
    (endDate b <= startDate b → total <= securityDeposit b).
Proof.
  intros Hpath Hmod _ Hsave. apply save_Some in Hsave as [Hv ->]. simpl.
  pose proof (pre_save_recomputes d path Hpath Hmod) as Hpr.
  assert (Hsame : fields (pre_save d)
                  = set_totalAmount (fields d) (totalAmount (fields (pre_save d)))).
  { unfold pre_save. case_match; [done|]. by destruct d as [[] ?]. }
  unfold validate in Hv. rewrite !andb_true_iff, !bool_decide_eq_true in Hv.
  destruct Hv as [[Hr Hd] _].
  do 2 eexists. split; [apply lookup_insert_eq|]. split; [exact Hpr|].
  rewrite durationInMonths_spec. rewrite Hsame. simpl.
  split; [exact Hr|]. split; [exact Hd|]. split; intros Hdates.
  - pose proof (months_of_positive_span _ _ Hdates). nia.
  - pose proof (months_of_reversed_span _ _ Hdates). nia.
Qed.

Lemma recomputed_total_is_bounded_witness :
  ∃ b total,
    bookings (with_booking st_requested 1
                (mkBooking 1 20 10 Jan_1 (day 61) 1000 500 (Some 3500) pending
                   pay_pending "" [] []))
    !! 1%positive = Some b ∧ totalAmount b = Some total ∧
    0 <= monthlyRent b ∧ 0 <= securityDeposit b ∧
    (startDate b < endDate b → monthlyRent b + securityDeposit b <= total) ∧
    (endDate b <= startDate b → total <= securityDeposit b).
Proof.
  apply (recomputed_total_is_bounded st_requested _ 1 extended_stay path_endDate).
  - vm_compute. do 3 right. left.
  - vm_compute. left.
  - repeat split; vm_compute; discriminate.
  - reflexivity.
Defined.

(** ** Who can do what *)

(** X7: the creation route never stores a booking.  Whatever the store,
    the user and the request, the answer has [success: false] (403, 404,
    400 or, when the request passes every check of the handler, the 500 of
    the failed [save]) and bookings and properties are left as they
    were. *)
Theorem creation_never_stores (st : Store) (user : User) (r : CreateRequest) :
  (handle st (POST_bookings user r)).1 = st ∧
  success (handle st (POST_bookings user r)).2 = false.
Proof.
  split; [apply post_bookings_stores_nothing|].
  simpl. unfold post_bookings. repeat case_match; simpl; try done.
  match goal with H : save _ _ _ = Some _ |- _ =>
    by rewrite save_new_Booking in H end.
Qed.

(** X8: a status update whose body carries a status string and that is
    answered with [success: true] was made by a user with the owner role
    who is the owner of that booking, and the string is one of the enum; in
    the bookings it changes the status of that one booking and nothing
    else. *)
Theorem status_update_is_the_owners (st st' : Store) (user : User) (id : positive)
    (requested : string) (res : Response) :
  handle st (PUT_booking_status user id requested) = (st', res) →
  success res = true →
  u_role user = owner_role ∧
  ∃ b s, bookings st !! id = Some b ∧ owner b = u_id user ∧
         castStatus requested = Some s ∧
         bookings st' = <[id := set_status b s]> (bookings st).
Proof.
  simpl. unfold put_booking_status.
  destruct (u_role user); [|by intros [= <- <-]].
  destruct (bookings st !! id) as [b|] eqn:Hb; [|by intros [= <- <-]].
  case_bool_decide as Hown; simpl; [|by intros [= <- <-]].
  destruct (castStatus requested) as [s|]; [|by intros [= <- <-]].
  destruct (save _ _ _) as [st2|] eqn:Hsave; [|by intros [= <- <-]].
  intros [= <- <-] _. apply save_Some in Hsave as [_ ->]. simpl.
  split; [done|]. exists b, s. repeat split; try done.
  by destruct (String.eqb requested "approved").
Qed.

Lemma status_update_is_the_owners_witness :
  u_role the_owner = owner_role ∧
  ∃ b s, bookings st_requested !! 1%positive = Some b ∧ owner b = u_id the_owner ∧
         castStatus "approved" = Some s ∧
         bookings st_approved = <[1%positive := set_status b s]> (bookings st_requested).
Proof.
  exact (status_update_is_the_owners st_requested st_approved the_owner 1 "approved"
           (res_status_updated "approved") eq_refl eq_refl).
Defined.

Lemma booking_route_keeps_closed (st : Store) (rq : Request) (pid : positive)
    (p : Property) :
  is_booking_route rq = true →
  properties st !! pid = Some p →
  isAvailable p = false →
  ∃ p', properties (handle st rq).1 !! pid = Some p' ∧ isAvailable p' = false.
Proof.
  intros Hrq Hp Hav.
  assert (Hsame : ∃ p', properties st !! pid = Some p' ∧ isAvailable p' = false)
    by (by exists p).
  destruct rq as [u r|u id s|u id r|u id msg|u body|u pid' body|u pid'];
    try discriminate; simpl.
  - by rewrite post_bookings_stores_nothing.
  - unfold put_booking_status. crack_handler.
    all: rewrite lookup_alter; destruct (decide (_ = pid)) as [->|]; [|done].
    all: rewrite Hp; by eexists.
  - unfold post_booking_payment. crack_handler.
  - unfold post_booking_message. crack_handler.
Qed.

Lemma booking_routes_keep_closed (st : Store) (rqs : list Request) (pid : positive)
    (p : Property) :
  Forall (λ rq, is_booking_route rq = true) rqs →
  properties st !! pid = Some p →
  isAvailable p = false →
  ∃ p', properties (run st rqs) !! pid = Some p' ∧ isAvailable p' = false.
Proof.
  revert st p. induction rqs as [|rq rqs IH]; intros st p Hall Hp Hav.
  - by exists p.
  - apply Forall_cons in Hall as [Hrq Hall].
    destruct (booking_route_keeps_closed st rq pid p Hrq Hp Hav) as (p1 & Hp1 & Hav1).
    simpl. by apply (IH _ p1).
Qed.

(** X9: once the approval of a booking has succeeded and its property
    exists, every request to book that property, whatever its dates, is
    answered 400 "not available" and stores nothing, then and after any
    sequence of requests to the booking router (until a property route
    changes the property). *)
Theorem approval_closes_the_property (st st' : Store) (user asking : User)
    (id : positive) (b : Booking) (r : CreateRequest) (rqs : list Request) :
  bookings st !! id = Some b →
  is_Some (properties st !! property b) →
  handle st (PUT_booking_status user id "approved")
  = (st', res_status_updated "approved") →
  Forall (λ rq, is_booking_route rq = true) rqs →
  u_role asking = renter_role →
  propertyId r = property b →
  handle (run st' rqs) (POST_bookings asking r)
  = (run st' rqs, res_property_unavailable).
Proof.
  intros Hb [p Hp]. simpl. unfold put_booking_status. rewrite Hb.
  destruct (u_role user); [|discriminate].
  destruct (negb _); [discriminate|]. simpl.
  destruct (save _ _ _) as [st2|] eqn:Hsave; [|discriminate].
  intros [= <-] Hall Hrole Hpid. apply save_Some in Hsave as [_ Hst2].
  assert (Hp2 : properties st2 !! property b = Some (set_isAvailable false p)).
  { rewrite Hst2. simpl. rewrite lookup_alter, decide_True by done. by rewrite Hp. }
  destruct (booking_routes_keep_closed st2 rqs (property b) _ Hall Hp2 eq_refl)
    as (p' & Hp' & Hav').
  unfold post_bookings. rewrite Hrole, Hpid, Hp', Hav'. reflexivity.
Qed.

Lemma approval_closes_the_property_witness :
  handle (run st_approved [PUT_booking_status the_owner 1 "cancelled";
                           POST_booking_message a_renter 1 "why?"])
    (POST_bookings another_renter (stay (day 100) (day 130)))
  = (run st_approved [PUT_booking_status the_owner 1 "cancelled";
                      POST_booking_message a_renter 1 "why?"],
     res_property_unavailable).
Proof.
  apply (approval_closes_the_property st_requested st_approved the_owner another_renter 1
           the_request (stay (day 100) (day 130))
           [PUT_booking_status the_owner 1 "cancelled";
            POST_booking_message a_renter 1 "why?"]);
    [reflexivity|by eexists|reflexivity|repeat constructor
    |reflexivity|reflexivity].
Defined.

Lemma put_booking_status_approved (st : Store) (user : User) (id : positive)
    (b : Booking) :
  u_role user = owner_role →
  bookings st !! id = Some b →
  owner b = u_id user →
  validate b = true →
  put_booking_status st user id "approved"
  = (mkStore (alter (set_isAvailable false) (property b) (properties st))
       (<[id := set_status b approved]> (bookings st)),
     res_status_updated "approved").
Proof.
  intros Hrole Hb Hown Hv. unfold put_booking_status. rewrite Hrole, Hb.
  rewrite bool_decide_eq_true_2 by done. simpl.
  rewrite save_status by done. reflexivity.
Qed.

(** X10: approval runs no conflict check.  The owner's approvals of two
    different bookings both succeed, whatever the properties and dates of
    the two, so that two overlapping stays on one property can both be
    approved. *)
Theorem approval_ignores_overlap (st : Store) (user : User) (i j : positive)
    (bi bj : Booking) :
  reachable st →
  u_role user = owner_role →
  i ≠ j →
  bookings st !! i = Some bi → owner bi = u_id user →
  bookings st !! j = Some bj → owner bj = u_id user →
  let st' := run st [PUT_booking_status user i "approved";
                     PUT_booking_status user j "approved"] in
  bookings st' !! i = Some (set_status bi approved) ∧
  bookings st' !! j = Some (set_status bj approved).
Proof.
  intros Hreach Hrole Hne Hi Howni Hj Hownj.
  pose proof (stored_booking_valid st i bi Hreach Hi) as Hvi.
  pose proof (stored_booking_valid st j bj Hreach Hj) as Hvj.
  cbv zeta. unfold run. simpl fold_left.
  rewrite (put_booking_status_approved st user i bi) by done. simpl.
  rewrite (put_booking_status_approved _ user j bj); simpl;
    [|done|by rewrite lookup_insert_ne|done|done].
  rewrite lookup_insert_ne by done. rewrite !lookup_insert_eq. done.
Qed.

Lemma approval_ignores_overlap_witness :
  let st' := run st_two_requests [PUT_booking_status the_owner 1 "approved";
                                  PUT_booking_status the_owner 2 "approved"] in
  bookings st' !! 1%positive
  = Some (mkBooking 1 20 10 Jan_1 Mar_1 1000 500 (Some 2500) approved
            pay_pending "" [] []) ∧
  bookings st' !! 2%positive
  = Some (mkBooking 1 21 10 Feb_1 Mar_1 1000 500 (Some 1500) approved
            pay_pending "" [] []).
Proof.
  exact (approval_ignores_overlap st_two_requests the_owner 1 2
           (mkBooking 1 20 10 Jan_1 Mar_1 1000 500 (Some 2500) pending
              pay_pending "" [] [])
           (mkBooking 1 21 10 Feb_1 Mar_1 1000 500 (Some 1500) pending
              pay_pending "" [] [])
           (seeded_reachable _ st_two_requests_seeded) eq_refl
           ltac:(discriminate) eq_refl eq_refl eq_refl eq_refl).
Defined.

(** X11: a user who is neither the renter nor the owner of a booking cannot
    read it, add a payment or a message to it, or change its status: each
    of the four routes answers 403 and the store is left as it was. *)
Theorem strangers_are_refused (st : Store) (user : User) (id : positive) (b : Booking) :
  bookings st !! id = Some b →
  renter b ≠ u_id user →
  owner b ≠ u_id user →
  get_booking st user id = (res_view_forbidden, None) ∧
  (∀ r, handle st (POST_booking_payment user id r) = (st, res_payment_forbidden)) ∧
  (∀ msg, handle st (POST_booking_message user id msg) = (st, res_message_forbidden)) ∧
  (∀ s, (handle st (PUT_booking_status user id s)).1 = st
        ∧ code (handle st (PUT_booking_status user id s)).2 = 403).
Proof.
  intros Hb Hr Ho.
  assert (bool_decide (renter b = u_id user) || bool_decide (owner b = u_id user)
          = false) as Hno.
  { by rewrite !bool_decide_eq_false_2. }
  split; [|split; [|split]].
  - unfold get_booking. by rewrite Hb, Hno.
  - intros r. simpl. unfold post_booking_payment. by rewrite Hb, Hno.
  - intros msg. simpl. unfold post_booking_message. by rewrite Hb, Hno.
  - intros s. simpl. unfold put_booking_status. rewrite Hb.
    rewrite (bool_decide_eq_false_2 _ Ho). by destruct (u_role user).
Qed.

Lemma strangers_are_refused_witness :
  get_booking st_requested another_renter 1 = (res_view_forbidden, None) ∧
  (∀ r, handle st_requested (POST_booking_payment another_renter 1 r)
        = (st_requested, res_payment_forbidden)) ∧
  (∀ msg, handle st_requested (POST_booking_message another_renter 1 msg)
          = (st_requested, res_message_forbidden)) ∧
  (∀ s, (handle st_requested (PUT_booking_status another_renter 1 s)).1 = st_requested
        ∧ code (handle st_requested (PUT_booking_status another_renter 1 s)).2 = 403).
Proof.
  apply (strangers_are_refused st_requested another_renter 1
           (mkBooking 1 20 10 Jan_1 Mar_1 1000 500 (Some 2500) pending
              pay_pending "" [] []));
    [reflexivity|discriminate|discriminate].
Defined.

(** X12: a message of the renter or the owner of a booking is stored at the
    end of its communication log with the requesting user as its sender,
    whatever the request says, and nothing else in the store changes. *)
Theorem message_is_logged_under_its_sender (st : Store) (user : User) (id : positive)
    (msg : string) (b : Booking) :
  reachable st →
  bookings st !! id = Some b →
  renter b = u_id user ∨ owner b = u_id user →
  handle st (POST_booking_message user id msg)
  = (mkStore (properties st)
       (<[id := set_communication b (communication b ++ [mkMessage (u_id user) msg])]>
          (bookings st)),
     res_message_sent).
Proof.
  intros Hreach Hb Hparty. simpl. unfold post_booking_message. rewrite Hb.
  assert (bool_decide (renter b = u_id user) || bool_decide (owner b = u_id user)
          = true) as ->.
  { rewrite orb_true_iff, !bool_decide_eq_true. exact Hparty. }
  simpl. unfold addMessage. rewrite save_message; [done|].
  exact (stored_booking_valid st id b Hreach Hb).
Qed.

Lemma message_is_logged_under_its_sender_witness :
  handle st_requested (POST_booking_message the_owner 1 "welcome")
  = (mkStore (properties st_requested)
       (<[1%positive :=
            mkBooking 1 20 10 Jan_1 Mar_1 1000 500 (Some 2500) pending pay_pending ""
              [] [mkMessage 10 "welcome"]]>
          (bookings st_requested)),
     res_message_sent).
Proof.
  exact (message_is_logged_under_its_sender st_requested the_owner 1 "welcome"
           (mkBooking 1 20 10 Jan_1 Mar_1 1000 500 (Some 2500) pending
              pay_pending "" [] [])
           st_requested_reachable eq_refl (or_intror eq_refl)).
Defined.

(** X13: a payment of the renter or the owner of a booking adds exactly its
    amount to the sum of the history, and changes nothing in the store but
    the payment history and the payment status of that booking. *)
Theorem payment_adds_its_amount (st st' : Store) (user : User) (id : positive)
    (r : PaymentRequest) (b : Booking) :
  bookings st !! id = Some b →
  handle st (POST_booking_payment user id r) = (st', res_payment_added) →
  properties st' = properties st ∧
  ∃ b',
    bookings st' = <[id := b']> (bookings st) ∧
    totalPaid (paymentHistory b') = totalPaid (paymentHistory b) + req_amount r ∧
    terms b' = terms b ∧ status b' = status b ∧
    specialRequests b' = specialRequests b ∧ communication b' = communication b.
Proof.
  intros Hb. simpl. unfold post_booking_payment. rewrite Hb.
  destruct (negb _); [discriminate|].
  destruct (castPayment r) as [p|] eqn:Hp; [|discriminate].
  destruct (addPayment _ _ _ _) as [st2|] eqn:Hadd; [|discriminate].
  intros [= <-]. unfold addPayment in Hadd. apply save_Some in Hadd as [_ ->].
  simpl. split; [done|]. eexists. split; [reflexivity|].
  simpl. rewrite totalPaid_snoc. repeat split.
  f_equal. unfold castPayment in Hp. repeat case_match; simplify_eq; reflexivity.
Qed.

Lemma payment_adds_its_amount_witness :
  properties st_paid_100 = properties st_requested ∧
  ∃ b',
    bookings st_paid_100 = <[1%positive := b']> (bookings st_requested) ∧
    totalPaid (paymentHistory b') = totalPaid [] + 100 ∧
    terms b'
    = terms (mkBooking 1 20 10 Jan_1 Mar_1 1000 500 (Some 2500) pending
               pay_pending "" [] []) ∧
    status b' = pending ∧ specialRequests b' = "" ∧ communication b' = [].
Proof.
  exact (payment_adds_its_amount st_requested st_paid_100 a_renter 1 (pays 100)
           (mkBooking 1 20 10 Jan_1 Mar_1 1000 500 (Some 2500) pending
              pay_pending "" [] [])
           eq_refl eq_refl).
Defined.

(** ** Bookings and properties *)

(** X14: the property routes never write a booking, and the booking routes
    never add or remove a property nor change a property's owner, rent or
    deposit (the one path they write is [isAvailable]). *)
Theorem routes_keep_to_their_collection (st : Store) (rq : Request) :
  match rq with
  | POST_properties _ _ | PUT_property _ _ _ | DELETE_property _ _ =>
      bookings (handle st rq).1 = bookings st
  | _ =>
      ∀ pid, listing_terms <$> properties (handle st rq).1 !! pid
             = listing_terms <$> properties st !! pid
  end.
Proof.
  destruct rq as [u r|u id s|u id r|u id msg|u body|u pid body|u pid]; simpl.
  - intros pid. unfold post_bookings. crack_handler.
  - intros pid. unfold put_booking_status. crack_handler.
    all: rewrite lookup_alter; destruct (decide (_ = pid)) as [<-|]; [|done].
    all: by destruct (properties st !! _).
  - intros pid. unfold post_booking_payment. crack_handler.
  - intros pid. unfold post_booking_message. crack_handler.
  - unfold post_properties. crack_handler.
  - unfold put_property. crack_handler.
  - unfold delete_property. crack_handler.
Qed.

Lemma handle_keeps_deleted (st : Store) (rq : Request) (pid : positive) :
  creates_property rq = false →
  properties st !! pid = None →
  properties (handle st rq).1 !! pid = None.
Proof.
  intros Hrq Hp.
  destruct rq as [u r|u id s|u id r|u id msg|u body|u pid' body|u pid'];
    try discriminate; simpl.
  - by rewrite post_bookings_stores_nothing.
  - unfold put_booking_status. crack_handler.
    all: rewrite lookup_alter; destruct (decide (_ = pid)) as [->|]; [|done].
    all: by rewrite Hp.
  - unfold post_booking_payment. crack_handler.
  - unfold post_booking_message. crack_handler.
  - unfold put_property. crack_handler.
    rewrite lookup_insert. destruct (decide (pid' = pid)) as [->|]; [congruence|done].
  - unfold delete_property. crack_handler.
    rewrite lookup_delete. by destruct (decide (pid' = pid)).
Qed.

Lemma run_keeps_deleted (st : Store) (rqs : list Request) (pid : positive) :
  Forall (λ rq, creates_property rq = false) rqs →
  properties st !! pid = None →
  properties (run st rqs) !! pid = None.
Proof.
  revert st. induction rqs as [|rq rqs IH]; intros st Hall Hp; [done|].
  apply Forall_cons in Hall as [Hrq Hall].
  simpl. by apply IH, handle_keeps_deleted.
Qed.

(** X15: deleting a property leaves the bookings made on it in the store;
    and after the deletion and any sequence of requests that creates no
    property (bookings, status updates, payments, messages, property
    updates and deletions), a request to book it is answered 404. *)
Theorem deleted_property_takes_no_requests (st st' : Store) (user asking : User)
    (pid : positive) (r : CreateRequest) (rqs : list Request) :
  handle st (DELETE_property user pid) = (st', res_property_deleted) →
  Forall (λ rq, creates_property rq = false) rqs →
  u_role asking = renter_role →
  propertyId r = pid →
  bookings st' = bookings st ∧
  handle (run st' rqs) (POST_bookings asking r)
  = (run st' rqs, res_property_not_found).
Proof.
  simpl. unfold delete_property.
  destruct (u_role user); [|discriminate].
  destruct (properties st !! pid); [|discriminate].
  destruct (negb _); [discriminate|].
  intros [= <-] Hall Hrole Hpid. split; [done|].
  unfold post_bookings. rewrite Hrole, Hpid.
  rewrite (run_keeps_deleted _ rqs pid Hall); [done|]. simpl.
  apply lookup_delete_eq.
Qed.

Lemma deleted_property_takes_no_requests_witness :
  bookings (run st_requested [DELETE_property the_owner 1]) = bookings st_requested ∧
  handle (run (run st_requested [DELETE_property the_owner 1])
            [PUT_booking_status the_owner 1 "approved";
             PUT_property the_owner 1 relisting])
    (POST_bookings another_renter (stay Jan_1 Feb_1))
  = (run (run st_requested [DELETE_property the_owner 1])
       [PUT_booking_status the_owner 1 "approved";
        PUT_property the_owner 1 relisting],
     res_property_not_found).
Proof.
  apply (deleted_property_takes_no_requests st_requested
           (run st_requested [DELETE_property the_owner 1])
           the_owner another_renter 1 (stay Jan_1 Feb_1)
           [PUT_booking_status the_owner 1 "approved";
            PUT_property the_owner 1 relisting]);
    [reflexivity|repeat constructor|reflexivity|reflexivity].
Defined.

(** X16: a property is created only for a user with the owner role, under
    a new id, and its owner is that user whatever owner the request body
    names; its rent and deposit are those of the body and are not negative,
    and it is available unless the body says otherwise. *)
Theorem created_property_belongs_to_its_creator (st st' : Store) (user : User)
    (body : PropertyBody) :
  handle st (POST_properties user body) = (st', res_property_created) →
  u_role user = owner_role ∧
  bookings st' = bookings st ∧
  properties st !! new_ObjectId (properties st) = None ∧
  ∃ p, properties st' = <[new_ObjectId (properties st) := p]> (properties st) ∧
       p_owner p = u_id user ∧
       body_rentPrice body = Some (rentPrice p) ∧
       body_securityDeposit body = Some (p_securityDeposit p) ∧
       0 <= rentPrice p ∧ 0 <= p_securityDeposit p ∧
       isAvailable p = default true (body_isAvailable body).
Proof.
  simpl. unfold post_properties.
  destruct (u_role user); [|discriminate].
  destruct (body_rentPrice body) as [rent|]; [|discriminate].
  destruct (body_securityDeposit body) as [deposit|]; [|discriminate].
  destruct (validate_property _) eqn:Hv; [|discriminate].
  intros [= <-]. simpl.
  unfold validate_property in Hv. simpl in Hv.
  rewrite andb_true_iff, !bool_decide_eq_true in Hv.
  split; [done|]. split; [done|]. split; [apply new_ObjectId_fresh|].
  eexists. split; [reflexivity|]. simpl. tauto.
Qed.

Lemma created_property_belongs_to_its_creator_witness :
  u_role the_owner = owner_role ∧
  bookings st_listed = bookings empty_store ∧
  properties empty_store !! new_ObjectId (properties empty_store) = None ∧
  ∃ p, properties st_listed
       = <[new_ObjectId (properties empty_store) := p]> (properties empty_store) ∧
       p_owner p = u_id the_owner ∧
       body_rentPrice listing = Some (rentPrice p) ∧
       body_securityDeposit listing = Some (p_securityDeposit p) ∧
       0 <= rentPrice p ∧ 0 <= p_securityDeposit p ∧
       isAvailable p = default true (body_isAvailable listing).
Proof.
  exact (created_property_belongs_to_its_creator empty_store st_listed the_owner
           listing eq_refl).
Defined.

(** X17: the update route assigns the whole request body to the property,
    its owner included: after a successful update whose body names another
    owner, the user who made it is refused (403) on every further update
    and on deletion of that property. *)
Theorem handing_over_a_property_locks_out (st st' : Store) (user : User)
    (pid : positive) (body : PropertyBody) (new_owner : positive) :
  handle st (PUT_property user pid body) = (st', res_property_updated) →
  body_owner body = Some new_owner →
  new_owner ≠ u_id user →
  (p_owner <$> properties st' !! pid) = Some new_owner ∧
  (∀ body', handle st' (PUT_property user pid body')
            = (st', res_property_update_forbidden)) ∧
  handle st' (DELETE_property user pid) = (st', res_property_delete_forbidden).
Proof.
  simpl. unfold put_property at 1.
  destruct (u_role user) eqn:Hrole; [|discriminate].
  destruct (properties st !! pid) as [p|]; [|discriminate].
  destruct (negb _); [discriminate|].
  destruct (validate_property _); [|discriminate].
  intros [= <-] Hbody Hne. simpl.
  split; [|split].
  - rewrite lookup_insert_eq. simpl. by rewrite Hbody.
  - intros body'. unfold put_property. rewrite Hrole. simpl.
    rewrite lookup_insert_eq. simpl. rewrite Hbody. simpl.
    by rewrite bool_decide_eq_false_2.
  - unfold delete_property. rewrite Hrole. simpl.
    rewrite lookup_insert_eq. simpl. rewrite Hbody. simpl.
    by rewrite bool_decide_eq_false_2.
Qed.

Lemma handing_over_a_property_locks_out_witness :
  (p_owner <$> properties (run st_listed [PUT_property the_owner 1 handover])
               !! 1%positive) = Some 11%positive ∧
  (∀ body', handle (run st_listed [PUT_property the_owner 1 handover])
              (PUT_property the_owner 1 body')
            = (run st_listed [PUT_property the_owner 1 handover],
               res_property_update_forbidden)) ∧
  handle (run st_listed [PUT_property the_owner 1 handover])
    (DELETE_property the_owner 1)
  = (run st_listed [PUT_property the_owner 1 handover], res_property_delete_forbidden).
Proof.
  apply (handing_over_a_property_locks_out st_listed
           (run st_listed [PUT_property the_owner 1 handover])
           the_owner 1 handover 11); [reflexivity|reflexivity|discriminate].
Defined.

(** ** Authentication *)

Lemma substring_all (s : string) : String.substring 0 (String.length s) s = s.
Proof. induction s as [|c s IH]; simpl; [done|]. by rewrite IH. Qed.

Lemma String_replace_Bearer (token : string) :
  String_replace "Bearer " "" ("Bearer " +:+ token) = token.
Proof.
  unfold String_replace.
  assert (String.index 0 "Bearer " ("Bearer " +:+ token) = Some 0%nat) as ->
    by (destruct token; reflexivity).
  simpl. rewrite Nat.sub_0_r. apply substring_all.
Qed.

Lemma authMiddleware_next (jwt_verify : string → JwtResult)
    (users : gmap positive Role) (authorization : option string) (user : User) :
  authMiddleware jwt_verify users authorization = next user ↔
  ∃ header,
    authorization = Some header ∧
    String_replace "Bearer " "" header ≠ "" ∧
    jwt_verify (String_replace "Bearer " "" header) = jwt_decoded (u_id user) ∧
    users !! u_id user = Some (u_role user).
Proof.
  unfold authMiddleware. split.
  - destruct authorization as [header|]; simpl; [|discriminate].
    destruct (String.eqb _ "") eqn:He; [discriminate|].
    apply String.eqb_neq in He.
    destruct (jwt_verify _) as [uid| | |] eqn:Hj; try discriminate.
    destruct (users !! uid) as [role|] eqn:Hu; [|discriminate].
    intros [= <-]. exists header. simpl. done.
  - intros (header & -> & He & Hj & Hu). simpl.
    apply String.eqb_neq in He. rewrite He, Hj, Hu. by destruct user.
Qed.

Lemma authMiddleware_respond (jwt_verify : string → JwtResult)
    (users : gmap positive Role) (authorization : option string) (res : Response) :
  authMiddleware jwt_verify users authorization = respond res →
  success res = false ∧ (code res = 401 ∨ code res = 500).
Proof.
  unfold authMiddleware. intros H.
  repeat case_match; simplify_eq; simpl; auto.
Qed.

(** X18: without the header, with an empty header and with the header
    "Bearer " alone the answer is 401 "No token provided", whatever the
    token service would say; a header "Bearer " followed by a token hands
    exactly that token to the token service, and is let through as the
    user it verifies to; an expired token is answered 401 "Token expired",
    another token error 401 "Invalid token", and a token of a user that is
    not in the collection 401 "Token is not valid". *)
Theorem authMiddleware_reads_the_bearer_token (jwt_verify : string → JwtResult)
    (users : gmap positive Role) (token : string) :
  authMiddleware jwt_verify users None = respond res_no_token ∧
  authMiddleware jwt_verify users (Some "") = respond res_no_token ∧
  authMiddleware jwt_verify users (Some "Bearer ") = respond res_no_token ∧
  (token ≠ "" →
   authMiddleware jwt_verify users (Some ("Bearer " +:+ token))
   = match jwt_verify token with
     | jwt_decoded userId =>
       match users !! userId with
       | Some role => next (mkUser userId role)
       | None => respond res_token_not_valid
       end
     | JsonWebTokenError => respond res_invalid_token
     | TokenExpiredError => respond res_token_expired
     | jwt_other_error => respond res_auth_error
     end).
Proof.
  split; [done|]. split; [done|]. split; [done|].
  intros Hne. unfold authMiddleware.
  change (String_replace "Bearer " "" <$> Some ("Bearer " +:+ token))
    with (Some (String_replace "Bearer " "" ("Bearer " +:+ token))).
  rewrite String_replace_Bearer.
  apply String.eqb_neq in Hne. by rewrite Hne.
Qed.

(** X19: behind [authMiddleware] a request writes to the store, or is
    answered with [success: true], only when its token verifies to a user of
    the collection, and then it is handled as that user with that user's
    role; every refusal of the middleware is a 401 or a 500 that writes
    nothing. *)
Theorem route_acts_for_the_token_holder (jwt_verify : string → JwtResult)
    (users : gmap positive Role) (st st' : Store) (authorization : option string)
    (call : User → Request) (res : Response) :
  route jwt_verify users st authorization call = (st', res) →
  st' ≠ st ∨ success res = true →
  ∃ header user,
    authorization = Some header ∧
    jwt_verify (String_replace "Bearer " "" header) = jwt_decoded (u_id user) ∧
    users !! u_id user = Some (u_role user) ∧
    handle st (call user) = (st', res).
Proof.
  unfold route.
  destruct (authMiddleware jwt_verify users authorization) as [user|res0] eqn:Hm.
  - apply authMiddleware_next in Hm as (header & -> & _ & Hj & Hu).
    intros Hh _. by exists header, user.
  - apply authMiddleware_respond in Hm as [Hs _].
    intros [= <- <-] [Hne|Hok]; [done|congruence].
Qed.

Lemma route_acts_for_the_token_holder_witness :
  ∃ header user,
    Some "Bearer t10" = Some header ∧
    demo_jwt (String_replace "Bearer " "" header) = jwt_decoded (u_id user) ∧
    demo_users !! u_id user = Some (u_role user) ∧
    handle empty_store (POST_properties user listing)
    = (st_listed, res_property_created).
Proof.
  apply (route_acts_for_the_token_holder demo_jwt demo_users empty_store st_listed
           (Some "Bearer t10") (λ user, POST_properties user listing)
           res_property_created); [reflexivity|right; reflexivity].
Defined.

(** ** The listings *)

Lemma totalPages_of_eq (total : nat) (limit : positive) :
  totalPages_of total limit = - ((- Z.of_nat total) / Z.pos limit).
Proof. unfold totalPages_of, Math_ceil. apply Qceiling_quot. Qed.

Lemma totalPages_of_bounds (total : nat) (limit : positive) :
  0 <= totalPages_of total limit ∧
  Z.of_nat total <= totalPages_of total limit * Z.pos limit ∧
  (totalPages_of total limit - 1) * Z.pos limit < Z.of_nat total.
Proof.
  rewrite totalPages_of_eq.
  pose proof (Z.div_mod (- Z.of_nat total) (Z.pos limit) ltac:(lia)) as Hdm.
  pose proof (Z.mod_pos_bound (- Z.of_nat total) (Z.pos limit) ltac:(lia)) as Hb.
  assert ((- Z.of_nat total) / Z.pos limit <= 0).
  { apply Z.div_le_upper_bound; lia. }
  repeat split; nia.
Qed.

Lemma nth_page_eq {A} (limit : positive) (l : list A) (i : nat) :
  nth_page limit l i = take (Pos.to_nat limit) (drop (i * Pos.to_nat limit) l).
Proof.
  unfold nth_page, paginate. rewrite Nat2Pos.id by done.
  by replace (S i - 1)%nat with i by lia.
Qed.

Lemma pages_concat {A} (limit : positive) (l : list A) (k : nat) :
  concat (nth_page limit l <$> seq 0 k) = take (k * Pos.to_nat limit) l.
Proof.
  induction k as [|k IH]; [done|].
  rewrite seq_S, fmap_app, concat_app, IH. simpl.
  rewrite app_nil_r, nth_page_eq, take_take_drop. f_equal. lia.
Qed.

Lemma pages_cover {A} (limit : positive) (l : list A) :
  concat (nth_page limit l <$> seq 0 (Z.to_nat (totalPages_of (length l) limit))) = l.
Proof.
  rewrite pages_concat. apply take_ge.
  destruct (totalPages_of_bounds (length l) limit) as (H0 & Hle & _).
  apply Nat2Z.inj_le. rewrite Nat2Z.inj_mul, Z2Nat.id by done.
  by rewrite positive_nat_Z.
Qed.

Lemma page_nonempty_iff {A} (page limit : positive) (l : list A) :
  paginate page limit l ≠ [] ↔ Z.pos page <= totalPages_of (length l) limit.
Proof.
  destruct (totalPages_of_bounds (length l) limit) as (H0 & Hle & Hlt).
  unfold paginate.
  assert (Hlen : length (take (Pos.to_nat limit)
                          (drop ((Pos.to_nat page - 1) * Pos.to_nat limit) l))
                 = Nat.min (Pos.to_nat limit)
                     (length l - (Pos.to_nat page - 1) * Pos.to_nat limit)).
  { by rewrite length_take, length_drop. }
  split.
  - intros Hne.
    destruct (take _ _) eqn:E; [done|]. simpl in Hlen.
    assert ((Pos.to_nat page - 1) * Pos.to_nat limit < length l)%nat by lia.
    nia.
  - intros Hpage Hnil. rewrite Hnil in Hlen. simpl in Hlen.
    assert ((Pos.to_nat page - 1) * Pos.to_nat limit < length l)%nat; [nia|lia].
Qed.

(** X20: the listing of bookings shows a user only documents of the
    collection that are the user's own (as renter for a renter, as owner
    for an owner) and, when the query names a status, only those with that
    status; a status outside the enum lists nothing. *)
Theorem listed_bookings_are_the_users_own (sorted : list Booking) (user : User)
    (q : ListQuery) (b : Booking) :
  b ∈ (get_bookings sorted user q).1 →
  b ∈ sorted ∧
  match u_role user with
  | renter_role => renter b = u_id user
  | owner_role => owner b = u_id user
  end ∧
  (∀ s, q_status q = Some s → s ≠ "" → castStatus s = Some (status b)).
Proof.
  unfold get_bookings, paginate. simpl. intros Hin.
  apply subseteq_take, subseteq_drop in Hin.
  apply list_elem_of_In, filter_In in Hin as [Hin Hf].
  apply list_elem_of_In in Hin. split; [exact Hin|].
  unfold bookings_filter in Hf. apply andb_true_iff in Hf as [Hrole Hst].
  split.
  - destruct (u_role user); by apply bool_decide_eq_true in Hrole.
  - intros s Hs Hne. rewrite Hs in Hst. apply String.eqb_neq in Hne.
    rewrite Hne in Hst. by apply bool_decide_eq_true in Hst.
Qed.

Lemma listed_bookings_are_the_users_own_witness :
  january_booking ∈ [january_booking] ∧
  renter january_booking = u_id a_renter ∧
  (∀ s, Some "approved" = Some s → s ≠ "" → castStatus s = Some (status january_booking)).
Proof.
  apply (listed_bookings_are_the_users_own [january_booking] a_renter
           (mkListQuery None None (Some "approved")) january_booking).
  vm_compute. left.
Defined.

(** X21: the pages of the booking listing, from 1 to [totalPages], are the
    user's matching bookings cut into consecutive runs: put one after the
    other they give every matching booking once, in the order of the sort;
    a page holds at most [limit] bookings, and it is empty exactly when its
    number is above [totalPages]. *)
Theorem booking_pages_partition_the_matches (sorted : list Booking) (user : User)
    (limit : option positive) (status_ : option string) (page : positive) :
  let page_of p := (get_bookings sorted user (mkListQuery (Some p) limit status_)).1 in
  let info := (get_bookings sorted user (mkListQuery (Some page) limit status_)).2 in
  let matching := List.filter (bookings_filter user status_) sorted in
  concat ((λ i, page_of (Pos.of_nat (S i))) <$> seq 0 (Z.to_nat (totalPages info)))
  = matching ∧
  totalBookings info = Z.of_nat (length matching) ∧
  (length (page_of page) <= Pos.to_nat (default 10%positive limit))%nat ∧
  (page_of page = [] ↔ totalPages info < Z.pos page).
Proof.
  cbv zeta. unfold get_bookings. simpl.
  split; [apply pages_cover|]. split; [done|]. split.
  - unfold paginate. rewrite length_take. lia.
  - pose proof (page_nonempty_iff page (default 10%positive limit)
                  (List.filter (bookings_filter user status_) sorted)) as Hp.
    split.
    + intros Hnil. apply Z.nle_gt. intros Hle. by apply Hp in Hle.
    + intros Hlt. destruct (paginate _ _ _) eqn:E; [done|].
      assert (Z.pos page <= totalPages_of
                (length (List.filter (bookings_filter user status_) sorted))
                (default 10%positive limit)) by (by apply Hp).
      lia.
Qed.

(** X22: every property the listing shows is a document of the collection
    that is active and meets the price bounds, the number of bedrooms and
    the least number of bathrooms of the query; it is available when the
    query says [isAvailable=true]. *)
Theorem listed_properties_pass_the_filter (regex : string → string → bool)
    (sorted : list PropertyDoc) (q : PropertyQuery) (d : PropertyDoc) :
  d ∈ (get_properties regex sorted q).1 →
  d ∈ sorted ∧ isActive d = true ∧
  (pq_isAvailable q = Some "true" → isAvailable (pd_property d) = true) ∧
  (∀ m, pq_minPrice q = Some m → m <= rentPrice (pd_property d)) ∧
  (∀ m, pq_maxPrice q = Some m → rentPrice (pd_property d) <= m) ∧
  (∀ n, pq_bedrooms q = Some n → bedrooms d = n) ∧
  (∀ n, pq_bathrooms q = Some n → (n <= bathrooms d)%Q).
Proof.
  unfold get_properties, paginate. simpl. intros Hin.
  apply subseteq_take, subseteq_drop in Hin.
  apply list_elem_of_In, filter_In in Hin as [Hin Hf].
  apply list_elem_of_In in Hin. split; [exact Hin|].
  unfold properties_filter in Hf. rewrite !andb_true_iff in Hf.
  destruct Hf as [[[[[[[[[Hact Hav] _] _] Hmin] Hmax] Hbed] Hbath] _] _].
  split; [exact Hact|]. split; [|split; [|split; [|split]]].
  - intros Hq. by rewrite Hq in Hav.
  - intros m Hq. rewrite Hq in Hmin. by apply bool_decide_eq_true in Hmin.
  - intros m Hq. rewrite Hq in Hmax. by apply bool_decide_eq_true in Hmax.
  - intros n Hq. rewrite Hq in Hbed. by apply bool_decide_eq_true in Hbed.
  - intros n Hq. rewrite Hq in Hbath. by apply Qle_bool_iff in Hbath.
Qed.

Lemma listed_properties_pass_the_filter_witness :
  a_flat ∈ [a_flat] ∧ isActive a_flat = true ∧
  (pq_isAvailable plain_query = Some "true" → isAvailable (pd_property a_flat) = true) ∧
  (∀ m, pq_minPrice plain_query = Some m → m <= rentPrice (pd_property a_flat)) ∧
  (∀ m, pq_maxPrice plain_query = Some m → rentPrice (pd_property a_flat) <= m) ∧
  (∀ n, pq_bedrooms plain_query = Some n → bedrooms a_flat = n) ∧
  (∀ n, pq_bathrooms plain_query = Some n → (n <= bathrooms a_flat)%Q).
Proof.
  apply (listed_properties_pass_the_filter no_match [a_flat] plain_query a_flat).
  vm_compute. left.
Defined.

(** X23: availability plays a part in the listing only when the query says
    [isAvailable=true] in so many words.  Without the parameter (its default
    is the boolean [true], which is not the string), with [false] or with
    anything else, a property passes the filter whether it is available or
    not. *)
Theorem listing_ignores_availability_unless_true (regex : string → string → bool)
    (q : PropertyQuery) (d : PropertyDoc) (v : bool) :
  pq_isAvailable q ≠ Some "true" →
  properties_filter regex q (with_isAvailable v d) = properties_filter regex q d.
Proof.
  intros Hq. unfold properties_filter. simpl.
  destruct (pq_isAvailable q) as [s|]; simpl; [|done].
  destruct (String.eqb s "true") eqn:E; [|done].
  apply String.eqb_eq in E. congruence.
Qed.

Lemma listing_ignores_availability_unless_true_witness :
  a_flat ∈ (get_properties no_match [a_flat] plain_query).1 ∧
  isAvailable (pd_property a_flat) = false ∧
  properties_filter no_match plain_query (with_isAvailable true a_flat)
  = properties_filter no_match plain_query a_flat.
Proof.
  split; [vm_compute; left|]. split; [reflexivity|].
  apply (listing_ignores_availability_unless_true no_match plain_query a_flat true).
  discriminate.
Defined.

(** X24: in the answer of the property listing, [hasNextPage] is true
    exactly when the next page of the same query shows a property, and
    [hasPrevPage] exactly when the page is not the first. *)
Theorem hasNextPage_means_a_next_page (regex : string → string → bool)
    (sorted : list PropertyDoc) (q : PropertyQuery) :
  let info := (get_properties regex sorted q).2 in
  let page := default 1%positive (pq_page q) in
  (hasNextPage info = true ↔
   (get_properties regex sorted (with_page (page + 1) q)).1 ≠ []) ∧
  (hasPrevPage info = true ↔ page ≠ 1%positive).
Proof.
  cbv zeta. unfold get_properties. simpl. split.
  - rewrite bool_decide_eq_true.
    change (properties_filter regex (with_page (default 1%positive (pq_page q) + 1) q))
      with (properties_filter regex q).
    rewrite page_nonempty_iff. lia.
  - rewrite bool_decide_eq_true. lia.
Qed.

(** ** Availability over time *)

(** X25: no request of the booking router makes a property available
    again.  A property that is unavailable, as every approval leaves it,
    stays in the store and stays unavailable through any sequence of
    booking requests, cancellations, rejections and completions included;
    only the property routes can reopen it. *)
Theorem booking_routes_never_reopen_a_property (st : Store) (rqs : list Request)
    (pid : positive) (p : Property) :
  Forall (λ rq, is_booking_route rq = true) rqs →
  properties st !! pid = Some p →
  isAvailable p = false →
  ∃ p', properties (run st rqs) !! pid = Some p' ∧ isAvailable p' = false.
Proof. apply booking_routes_keep_closed. Qed.

Lemma booking_routes_never_reopen_a_property_witness :
  ∃ p', properties (run st_approved
                      [PUT_booking_status the_owner 1 "active";
                       POST_booking_payment a_renter 1 (pays 2500);
                       PUT_booking_status the_owner 1 "completed";
                       POST_bookings another_renter (stay (day 100) (day 130))])
        !! 1%positive = Some p'
        ∧ isAvailable p' = false.
Proof.
  apply (booking_routes_never_reopen_a_property st_approved
           [PUT_booking_status the_owner 1 "active";
            POST_booking_payment a_renter 1 (pays 2500);
            PUT_booking_status the_owner 1 "completed";
            POST_bookings another_renter (stay (day 100) (day 130))]
           1 (mkProperty 10 1000 500 false));
    [repeat constructor|reflexivity|reflexivity].
Defined.

(** X26: every property of a reachable store has a rent and a deposit that
    are not negative: creation and update answer 400 and write nothing
    otherwise. *)
Theorem stored_properties_are_valid (st : Store) (pid : positive) (p : Property) :
  reachable st →
  properties st !! pid = Some p →
  0 <= rentPrice p ∧ 0 <= p_securityDeposit p.
Proof.
  intros Hreach Hp. destruct (reachable_ok st Hreach) as [_ Hok].
  specialize (Hok pid p Hp). unfold validate_property in Hok.
  by rewrite andb_true_iff, !bool_decide_eq_true in Hok.
Qed.

Lemma stored_properties_are_valid_witness :
  0 <= rentPrice (mkProperty 10 1000 500 true)
  ∧ 0 <= p_securityDeposit (mkProperty 10 1000 500 true).
Proof.
  exact (stored_properties_are_valid st_listed 1 (mkProperty 10 1000 500 true)
           st_listed_reachable eq_refl).
Defined.
